(** * Eudia legal summarizer: the document-analysis core of [src/main.py]

    A shallow embedding of the regex-based extractors
    ([extract_future_dates], [extract_case_numbers],
    [generate_case_timeline]), of the JSON isolation done by
    [extract_structured_summary] and of the batch loop of
    [upload_and_summarize], together with the properties the specification
    states about them.

    Conventions.
    - A Python [str] is a [string]; the character classes [\d], [\s], [\w]
      and case folding are those of the ASCII range, so the embedding
      follows the source on ASCII text.  Bytes above 127 (the UTF-8 bytes of
      other characters) belong to no class.
    - [datetime.datetime.now()] is an explicit argument [now].
    - Python exceptions are values of [exn]; code that may raise returns a
      [result]. *)

From Stdlib Require Import Bool Arith Lia List Ascii String ZArith NArith.
From Stdlib Require Import Sorting.Sorted Sorting.Permutation.
Import ListNotations.

Open Scope string_scope.
Open Scope list_scope.

(* ================================================================== *)
(** ** Characters *)

Definition code (c : ascii) : N := N_of_ascii c.

Definition in_range (lo hi : ascii) (c : ascii) : bool :=
  (code lo <=? code c)%N && (code c <=? code hi)%N.

Definition is_digit (c : ascii) : bool := in_range "0" "9" c.
Definition is_upper (c : ascii) : bool := in_range "A" "Z" c.
Definition is_lower (c : ascii) : bool := in_range "a" "z" c.

(** [str.isspace] on the ASCII range: TAB, LF, VT, FF, CR, the four
    separators 0x1c-0x1f and the space. *)
Definition is_space (c : ascii) : bool :=
  in_range "009" "013" c || in_range "028" "031" c || (code c =? 32)%N.

(** [\w]: letters, digits and the underscore. *)
Definition is_word (c : ascii) : bool :=
  is_digit c || is_upper c || is_lower c || (code c =? 95)%N.

Definition lower (c : ascii) : ascii :=
  if is_upper c then ascii_of_N (code c + 32) else c.
Definition upper (c : ascii) : ascii :=
  if is_lower c then ascii_of_N (code c - 32) else c.

(* ================================================================== *)
(** ** Strings: the [str] methods the source calls *)

Fixpoint rev_append (s acc : string) : string :=
  match s with
  | EmptyString => acc
  | String c s' => rev_append s' (String c acc)
  end.

Definition rev (s : string) : string := rev_append s EmptyString.

Fixpoint lstrip (s : string) : string :=
  match s with
  | String c s' => if is_space c then lstrip s' else s
  | EmptyString => EmptyString
  end.

(** [s.strip()] *)
Definition strip (s : string) : string := rev (lstrip (rev (lstrip s))).

Fixpoint skipn (n : nat) (s : string) : string :=
  match n, s with
  | O, _ => s
  | S n', String _ s' => skipn n' s'
  | S _, EmptyString => EmptyString
  end.

Fixpoint firstn (n : nat) (s : string) : string :=
  match n, s with
  | O, _ => EmptyString
  | S n', String c s' => String c (firstn n' s')
  | S _, EmptyString => EmptyString
  end.

(** [s.replace(old, new)] for a non-empty [old]: occurrences are replaced
    from left to right without overlap.  [skip] counts the characters of
    an occurrence still to be dropped. *)
Fixpoint replace_from (old new : string) (skip : nat) (s : string) : string :=
  match s with
  | EmptyString => EmptyString
  | String c s' =>
      match skip with
      | S k => replace_from old new k s'
      | O =>
          if prefix old s
          then new ++ replace_from old new (String.length old - 1) s'
          else String c (replace_from old new 0 s')
      end
  end.

Definition replace (old new s : string) : string := replace_from old new 0 s.

(** Lexicographic comparison of [str] values, by code point. *)
Fixpoint str_ltb (a b : string) : bool :=
  match a, b with
  | _, EmptyString => false
  | EmptyString, String _ _ => true
  | String x a', String y b' =>
      if (code x <? code y)%N then true
      else if (code y <? code x)%N then false
      else str_ltb a' b'
  end.

Definition str_leb (a b : string) : bool := negb (str_ltb b a).

(* ================================================================== *)
(** ** Regular expressions: the fragment of [re] the source uses

    The matcher is a backtracking one: [run] lists the positions at which
    a match of the expression can end, in the order in which [re] tries
    them (alternatives left to right, greedy repetitions longest first),
    so the head of the list is the match [re] reports. *)

Inductive citem : Type :=
| CLit (a : ascii)             (* a literal character inside [...] *)
| CRange (lo hi : ascii)       (* lo-hi *)
| CDigit                       (* \d *)
| CSpace.                      (* \s *)

Inductive regex : Type :=
| Eps
| Chr (a : ascii)                                 (* a literal character *)
| Cls (items : list citem)                        (* [...], \d, \s *)
| Dot                                             (* . *)
| Seq (r1 r2 : regex)
| Alt (r1 r2 : regex)
| Rep (lo : nat) (hi : option nat) (r : regex)    (* greedy {lo,hi}; None: no bound *)
| WordB                                           (* \b *)
| Behind (items : list citem)                     (* (?<=[...]) *)
| Group (name : string) (r : regex).              (* a capturing group *)

Record flags : Type := { IGNORECASE : bool; DOTALL : bool }.

Definition no_flags : flags := {| IGNORECASE := false; DOTALL := false |}.
Definition re_I : flags := {| IGNORECASE := true; DOTALL := false |}.
Definition re_S : flags := {| IGNORECASE := false; DOTALL := true |}.

(** A position in the subject: the text before it (reversed), the text
    after it, and the groups captured so far. *)
Record cursor : Type := {
  before : string;
  rest : string;
  caps : list (string * string)
}.

Definition start_of (s : string) : cursor :=
  {| before := EmptyString; rest := s; caps := [] |}.

Definition advance (x : ascii) (s : string) (c : cursor) : cursor :=
  {| before := String x (before c); rest := s; caps := caps c |}.

Definition item_base (it : citem) (c : ascii) : bool :=
  match it with
  | CLit a => Ascii.eqb a c
  | CRange lo hi => in_range lo hi c
  | CDigit => is_digit c
  | CSpace => is_space c
  end.

Definition item_test (f : flags) (it : citem) (c : ascii) : bool :=
  item_base it c
  || (IGNORECASE f && (item_base it (lower c) || item_base it (upper c))).

Definition cls_test (f : flags) (items : list citem) (c : ascii) : bool :=
  existsb (fun it => item_test f it c) items.

Definition chr_test (f : flags) (a c : ascii) : bool :=
  if IGNORECASE f then Ascii.eqb (lower a) (lower c) else Ascii.eqb a c.

Definition dot_test (f : flags) (c : ascii) : bool :=
  DOTALL f || negb (code c =? 10)%N.

Definition step (p : ascii -> bool) (c : cursor) : list cursor :=
  match rest c with
  | String x s => if p x then [advance x s c] else []
  | EmptyString => []
  end.

Definition word_before (c : cursor) : bool :=
  match before c with String x _ => is_word x | EmptyString => false end.
Definition word_after (c : cursor) : bool :=
  match rest c with String x _ => is_word x | EmptyString => false end.

(** The text consumed between two positions of the same subject. *)
Definition between (c c' : cursor) : string :=
  firstn (String.length (rest c) - String.length (rest c')) (rest c).

Definition set_cap (name : string) (c c' : cursor) : cursor :=
  {| before := before c'; rest := rest c';
     caps := (name, between c c') :: caps c' |}.

(** Exactly [n] iterations of [body]. *)
Fixpoint times (body : cursor -> list cursor) (n : nat) (c : cursor)
  : list cursor :=
  match n with
  | O => [c]
  | S n' => flat_map (times body n') (body c)
  end.

(** At most [n] further iterations, the longest first. *)
Fixpoint upto (body : cursor -> list cursor) (n : nat) (c : cursor)
  : list cursor :=
  match n with
  | O => [c]
  | S n' => flat_map (upto body n') (body c) ++ [c]
  end.

(** Every repeated expression of the source consumes at least one
    character at each iteration, so an unbounded repetition iterates at
    most as many times as characters are left. *)
Fixpoint run (f : flags) (r : regex) (c : cursor) : list cursor :=
  match r with
  | Eps => [c]
  | Chr a => step (chr_test f a) c
  | Cls items => step (cls_test f items) c
  | Dot => step (dot_test f) c
  | Seq r1 r2 => flat_map (run f r2) (run f r1 c)
  | Alt r1 r2 => run f r1 c ++ run f r2 c
  | Rep lo hi r' =>
      flat_map
        (fun c' =>
           upto (run f r')
                (match hi with
                 | Some h => h - lo
                 | None => String.length (rest c')
                 end) c')
        (times (run f r') lo c)
  | WordB => if xorb (word_before c) (word_after c) then [c] else []
  | Behind items =>
      match before c with
      | String x _ => if cls_test f items x then [c] else []
      | EmptyString => []
      end
  | Group name r' => map (set_cap name c) (run f r' c)
  end.

(** A match object: where it starts, where it ends. *)
Record rmatch : Type := { m_start : cursor; m_end : cursor }.

(** [m.group(0)] *)
Definition group0 (m : rmatch) : string := between (m_start m) (m_end m).

(** [m.group(name)] *)
Fixpoint assoc (name : string) (l : list (string * string)) : option string :=
  match l with
  | [] => None
  | (k, v) :: l' => if String.eqb k name then Some v else assoc name l'
  end.

Definition group (name : string) (m : rmatch) : option string :=
  assoc name (caps (m_end m)).

Definition clear_caps (c : cursor) : cursor :=
  {| before := before c; rest := rest c; caps := [] |}.

(** The match of [r] that starts at position [c], if any. *)
Definition match_at (f : flags) (r : regex) (c : cursor) : option rmatch :=
  match run f r (clear_caps c) with
  | c' :: _ => Some {| m_start := c; m_end := c' |}
  | [] => None
  end.

(** [re.match(r, s, flags)] *)
Definition re_match (f : flags) (r : regex) (s : string) : option rmatch :=
  match_at f r (start_of s).

(** The leftmost match at or after position [c]. *)
Fixpoint search_from (f : flags) (r : regex) (fuel : nat) (c : cursor)
  : option rmatch :=
  match match_at f r c with
  | Some m => Some m
  | None =>
      match fuel, rest c with
      | S fuel', String x s => search_from f r fuel' (advance x s c)
      | _, _ => None
      end
  end.

(** [re.search(r, s, flags)] *)
Definition re_search (f : flags) (r : regex) (s : string) : option rmatch :=
  search_from f r (String.length s) (start_of s).

(** The successive non-overlapping matches, left to right.  An empty
    match moves the scan one character on; no pattern of the source has
    one. *)
Fixpoint finditer_from (f : flags) (r : regex) (fuel : nat) (c : cursor)
  : list rmatch :=
  match fuel with
  | O => []
  | S fuel' =>
      match match_at f r c with
      | Some m =>
          m :: (if (String.length (rest (m_end m)) <? String.length (rest c))%nat
                then finditer_from f r fuel' (clear_caps (m_end m))
                else match rest c with
                     | String x s => finditer_from f r fuel' (advance x s c)
                     | EmptyString => []
                     end)
      | None =>
          match rest c with
          | String x s => finditer_from f r fuel' (advance x s c)
          | EmptyString => []
          end
      end
  end.

(** [re.finditer(r, s, flags)] *)
Definition re_finditer (f : flags) (r : regex) (s : string) : list rmatch :=
  finditer_from f r (S (String.length s)) (start_of s).

(** [re.findall(r, s, flags)] for a pattern without capturing groups. *)
Definition re_findall (f : flags) (r : regex) (s : string) : list string :=
  map group0 (re_finditer f r s).

(** [re.sub(r, repl, s)]: text outside the matches is copied, each match
    is replaced by [repl] of it. *)
Fixpoint sub_from (f : flags) (r : regex) (repl : rmatch -> string)
         (fuel : nat) (c : cursor) : string :=
  match fuel with
  | O => EmptyString
  | S fuel' =>
      match match_at f r c with
      | Some m =>
          if (String.length (rest (m_end m)) <? String.length (rest c))%nat
          then repl m ++ sub_from f r repl fuel' (clear_caps (m_end m))
          else match rest c with
               | String x s =>
                   repl m ++ String x (sub_from f r repl fuel' (advance x s c))
               | EmptyString => repl m
               end
      | None =>
          match rest c with
          | String x s => String x (sub_from f r repl fuel' (advance x s c))
          | EmptyString => EmptyString
          end
      end
  end.

Definition re_sub (f : flags) (r : regex) (repl : rmatch -> string)
           (s : string) : string :=
  sub_from f r repl (S (String.length s)) (start_of s).

(** [re.split(r, s)] for a pattern without capturing groups: the pieces
    of [s] between the matches; [piece] is the current piece, reversed. *)
Fixpoint split_from (f : flags) (r : regex) (fuel : nat) (piece : string)
         (c : cursor) : list string :=
  match fuel with
  | O => [rev piece]
  | S fuel' =>
      match match_at f r c with
      | Some m =>
          if (String.length (rest (m_end m)) <? String.length (rest c))%nat
          then rev piece
               :: split_from f r fuel' EmptyString (clear_caps (m_end m))
          else match rest c with
               | String x s =>
                   split_from f r fuel' (String x piece) (advance x s c)
               | EmptyString => [rev piece]
               end
      | None =>
          match rest c with
          | String x s => split_from f r fuel' (String x piece) (advance x s c)
          | EmptyString => [rev piece]
          end
      end
  end.

Definition re_split (f : flags) (r : regex) (s : string) : list string :=
  split_from f r (S (String.length s)) EmptyString (start_of s).

(** *** Pattern syntax helpers *)

Fixpoint lit (s : string) : regex :=
  match s with
  | EmptyString => Eps
  | String c EmptyString => Chr c
  | String c s' => Seq (Chr c) (lit s')
  end.

Fixpoint seqs (l : list regex) : regex :=
  match l with
  | [] => Eps
  | [r] => r
  | r :: l' => Seq r (seqs l')
  end.

Fixpoint alts (l : list regex) : regex :=
  match l with
  | [] => Eps
  | [r] => r
  | r :: l' => Alt r (alts l')
  end.

Definition d_ : regex := Cls [CDigit].                   (* \d *)
Definition s_ : regex := Cls [CSpace].                   (* \s *)
Definition star (r : regex) : regex := Rep 0 None r.     (* r* *)
Definition plus (r : regex) : regex := Rep 1 None r.     (* r+ *)
Definition opt (r : regex) : regex := Rep 0 (Some 1) r.  (* r? *)
Definition rep (lo hi : nat) (r : regex) : regex := Rep lo (Some hi) r.
Definition exactly (n : nat) (r : regex) : regex := Rep n (Some n) r.

(* ================================================================== *)
(** ** Exceptions *)

Inductive exn : Type :=
| ValueError (msg : string)
| JSONDecodeError (msg : string)
| TypeError (msg : string)
| AttributeError (msg : string)
| OtherError (msg : string)
| HTTPException (status_code : Z) (detail : string).

Inductive result (A : Type) : Type :=
| Ok (a : A)
| Raise (e : exn).

Arguments Ok {A} a.
Arguments Raise {A} e.

Definition bind {A B : Type} (m : result A) (k : A -> result B) : result B :=
  match m with
  | Ok a => k a
  | Raise e => Raise e
  end.

Notation "x <- m ;; k" := (bind m (fun x => k))
  (at level 61, m at next level, right associativity).


(* ================================================================== *)
(** ** [datetime]: the calendar, [strptime] and [strftime] *)

Record datetime : Type := {
  year : Z; month : Z; day : Z;
  hour : Z; minute : Z; second : Z; microsecond : Z
}.

Definition midnight (y m d : Z) : datetime :=
  {| year := y; month := m; day := d;
     hour := 0; minute := 0; second := 0; microsecond := 0 |}.

Definition fields (t : datetime) : list Z :=
  [year t; month t; day t; hour t; minute t; second t; microsecond t].

Fixpoint lex_compare (a b : list Z) : comparison :=
  match a, b with
  | [], [] => Eq
  | [], _ :: _ => Lt
  | _ :: _, [] => Gt
  | x :: a', y :: b' =>
      match (x ?= y)%Z with
      | Eq => lex_compare a' b'
      | o => o
      end
  end.

Definition dt_compare (a b : datetime) : comparison :=
  lex_compare (fields a) (fields b).

(** [a < b] and [a <= b] on [datetime] values *)
Definition dt_ltb (a b : datetime) : bool :=
  match dt_compare a b with Lt => true | _ => false end.
Definition dt_leb (a b : datetime) : bool :=
  match dt_compare a b with Gt => false | _ => true end.

Definition is_leap (y : Z) : bool :=
  ((y mod 4 =? 0) && (negb (y mod 100 =? 0) || (y mod 400 =? 0)))%Z.

Definition days_in_month (y m : Z) : Z :=
  if (m =? 2)%Z then (if is_leap y then 29 else 28)
  else if ((m =? 4) || (m =? 6) || (m =? 9) || (m =? 11))%Z then 30
  else 31.

(** [calendar.month_name[1:]] in the C locale *)
Definition month_names : list string :=
  ["January"; "February"; "March"; "April"; "May"; "June"; "July";
   "August"; "September"; "October"; "November"; "December"].

Definition month_name (m : Z) : string :=
  nth (Z.to_nat (m - 1)) month_names "".

Fixpoint lower_str (s : string) : string :=
  match s with
  | EmptyString => EmptyString
  | String c s' => String (lower c) (lower_str s')
  end.

(** [locale_time.f_month.index(name.lower())], counted from 1 *)
Fixpoint month_index (names : list string) (i : Z) (name : string) : option Z :=
  match names with
  | [] => None
  | n :: names' =>
      if String.eqb (lower_str n) (lower_str name) then Some i
      else month_index names' (i + 1) name
  end.

Definition digit_val (c : ascii) : Z := Z.of_N (code c) - 48.

(** [int(s)] on the text of a numeric directive: digits, possibly after
    the blank that [%d] accepts. *)
Fixpoint int_from (acc : Z) (s : string) : Z :=
  match s with
  | EmptyString => acc
  | String c s' =>
      if is_digit c then int_from (acc * 10 + digit_val c) s'
      else int_from acc s'
  end.

Definition int_of (s : string) : Z := int_from 0 s.

(** The regular expression of each directive, as [_strptime.TimeRE]
    defines it; month names are tried longest first. *)
Definition directive (d : ascii) : option regex :=
  if Ascii.eqb d "d" then
    Some (Group "d"
            (alts [Seq (Chr "3") (Cls [CRange "0" "1"]);
                   Seq (Cls [CRange "1" "2"]) d_;
                   Seq (Chr "0") (Cls [CRange "1" "9"]);
                   Cls [CRange "1" "9"];
                   Seq (Chr " ") (Cls [CRange "1" "9"])]))
  else if Ascii.eqb d "m" then
    Some (Group "m"
            (alts [Seq (Chr "1") (Cls [CRange "0" "2"]);
                   Seq (Chr "0") (Cls [CRange "1" "9"]);
                   Cls [CRange "1" "9"]]))
  else if Ascii.eqb d "Y" then Some (Group "Y" (seqs [d_; d_; d_; d_]))
  else if Ascii.eqb d "y" then Some (Group "y" (seqs [d_; d_]))
  else if Ascii.eqb d "B" then
    Some (Group "B"
            (alts (List.map lit
                     ["september"; "february"; "november"; "december";
                      "january"; "october"; "august"; "march"; "april";
                      "june"; "july"; "may"])))
  else None.

(** [TimeRE.pattern]: a run of white space in the format stands for
    [\s+], a directive for its expression, anything else for itself.
    [None]: a directive this model does not know (a bad directive). *)
Fixpoint pattern (fmt : string) : option regex :=
  match fmt with
  | EmptyString => Some Eps
  | String c fmt' =>
      if Ascii.eqb c "%" then
        match fmt' with
        | String d fmt'' =>
            match directive d, pattern fmt'' with
            | Some r, Some k => Some (Seq r k)
            | _, _ => None
            end
        | EmptyString => None
        end
      else if is_space c then
        match fmt' with
        | String c' _ =>
            if is_space c' then pattern fmt'
            else option_map (Seq (plus s_)) (pattern fmt')
        | EmptyString => Some (plus s_)
        end
      else option_map (Seq (Chr c)) (pattern fmt')
  end.

(** The year a match denotes: [%Y] as written, [%y] by the POSIX pivot
    (00-68 are 2000-2068, 69-99 are 1969-1999), 1900 without either. *)
Definition found_year (m : rmatch) : Z :=
  match group "Y" m, group "y" m with
  | Some s, _ => int_of s
  | None, Some s => let y := int_of s in
                    if (y <=? 68)%Z then y + 2000 else y + 1900
  | None, None => 1900
  end.

Definition found_month (m : rmatch) : option Z :=
  match group "m" m, group "B" m with
  | Some s, _ => Some (int_of s)
  | None, Some s => month_index month_names 1 s
  | None, None => Some 1%Z
  end.

Definition found_day (m : rmatch) : Z :=
  match group "d" m with
  | Some s => int_of s
  | None => 1
  end.

(** [datetime.datetime.strptime(data_string, format)] *)
Definition strptime (data_string format : string) : result datetime :=
  match pattern format with
  | None => Raise (ValueError "bad directive in format")
  | Some format_regex =>
      match re_match re_I format_regex data_string with
      | None => Raise (ValueError "time data does not match format")
      | Some found =>
          match rest (m_end found) with
          | String _ _ => Raise (ValueError "unconverted data remains")
          | EmptyString =>
              match found_month found with
              | None => Raise (ValueError "unknown month")
              | Some mo =>
                  let y := found_year found in
                  let d := found_day found in
                  if (y <? 1)%Z
                  then Raise (ValueError "year 0 is out of range")
                  else if (days_in_month y mo <? d)%Z
                  then Raise (ValueError "day is out of range for month")
                  else Ok (midnight y mo d)
              end
          end
      end
  end.

Fixpoint digits_rev (n : nat) (z : Z) : string :=
  match n with
  | O => EmptyString
  | S n' => String (ascii_of_N (Z.to_N (z mod 10) + 48)) (digits_rev n' (z / 10))
  end.

(** [z] written with [n] digits, zero padded *)
Definition zpad (n : nat) (z : Z) : string := rev (digits_rev n z).

(** [str(e)]; an [HTTPException] prints as its status code and detail *)
Definition exn_str (e : exn) : string :=
  match e with
  | ValueError msg => msg
  | JSONDecodeError msg => msg
  | TypeError msg => msg
  | AttributeError msg => msg
  | OtherError msg => msg
  | HTTPException status_code detail => zpad 3 status_code ++ ": " ++ detail
  end.

(** [t.strftime("%d %B %Y")]; the year is written with four digits, as
    the library documents for [%Y]. *)
Definition strftime_dBY (t : datetime) : string :=
  zpad 2 (day t) ++ " " ++ month_name (month t) ++ " " ++ zpad 4 (year t).

(* ================================================================== *)
(** ** Lists: [sorted], [list.sort(key=...)] and [list(set(...))] *)

Section Sorting.
Variable A : Type.
Variable leb : A -> A -> bool.

(** [x] goes in front of the first element it does not exceed: with
    [sort_by] below, equal elements keep their original order, as in
    Python's stable sort. *)
Fixpoint insert_by (x : A) (l : list A) : list A :=
  match l with
  | [] => [x]
  | y :: l' => if leb x y then x :: l else y :: insert_by x l'
  end.

Fixpoint sort_by (l : list A) : list A :=
  match l with
  | [] => []
  | x :: l' => insert_by x (sort_by l')
  end.
End Sorting.

Arguments insert_by {A} leb x l.
Arguments sort_by {A} leb l.

(** [list(set(l))]: the distinct elements of [l].  Python leaves the
    iteration order of a set unspecified; only membership and length of
    this list are meaningful. *)
Definition list_set (l : list string) : list string := nodup string_dec l.

(** [sorted(l)] on strings *)
Definition sorted (l : list string) : list string := sort_by str_leb l.

(* ================================================================== *)
(** ** [extract_future_dates] *)

(** [(?:January|February|...|December)] *)
Definition months_re : regex := alts (List.map lit month_names).

Definition date_seps : list citem := [CLit "/"; CLit "."; CLit "-"].

Definition date_pattern : regex :=
  seqs
    [WordB;
     alts
       [seqs [rep 1 2 d_; star s_;
              opt (alts [lit "st"; lit "nd"; lit "rd"; lit "th"]);
              star s_; months_re; star (Cls [CSpace; CLit ","]);
              exactly 4 d_];
        seqs [months_re; star s_; rep 1 2 d_; opt (Chr ","); star s_;
              exactly 4 d_];
        seqs [months_re; plus s_; exactly 4 d_];
        seqs [exactly 4 d_; Chr "-"; exactly 2 d_; Chr "-"; exactly 2 d_];
        seqs [rep 1 2 d_; Cls date_seps; rep 1 2 d_; Cls date_seps;
              rep 2 4 d_]];
     WordB].

Definition formats_to_try : list string :=
  ["%d %B %Y"; "%B %d, %Y"; "%B %Y";
   "%Y-%m-%d"; "%d/%m/%Y"; "%d-%m-%Y"; "%d.%m.%Y";
   "%d/%m/%y"; "%d-%m-%y"; "%d.%m.%y"].

(** [(\d+)(st|nd|rd|th)], compiled without flags *)
Definition ordinal_pattern : regex :=
  Seq (Group "1" (plus d_))
      (Group "2" (alts [lit "st"; lit "nd"; lit "rd"; lit "th"])).

Definition group_or_empty (name : string) (m : rmatch) : string :=
  match group name m with Some s => s | None => EmptyString end.

(** [re.sub(r'(\d+)(st|nd|rd|th)', r'\1', date_str)] *)
Definition cleaned_date_str (date_str : string) : string :=
  re_sub no_flags ordinal_pattern (group_or_empty "1") date_str.

(** The inner loop: the first format that parses wins, a [ValueError]
    moves on to the next format, [None] when none parses. *)
Fixpoint try_formats (s : string) (fmts : list string)
  : result (option datetime) :=
  match fmts with
  | [] => Ok None
  | fmt :: fmts' =>
      match strptime s fmt with
      | Ok t => Ok (Some t)
      | Raise (ValueError _) => try_formats s fmts'
      | Raise e => Raise e
      end
  end.

(** The parse of one matched substring. *)
Definition parse_date_str (date_str : string) : result (option datetime) :=
  try_formats (replace "," "" (cleaned_date_str date_str)) formats_to_try.

(** The loop over the matches; [dates_found] is the list built so far. *)
Fixpoint collect_dates (current_date : datetime) (matches : list rmatch)
         (dates_found : list string) : result (list string) :=
  match matches with
  | [] => Ok dates_found
  | m :: matches' =>
      let date_str := strip (group0 m) in
      parsed_date <- parse_date_str date_str ;;
      match parsed_date with
      | Some t =>
          if dt_ltb current_date t
          then collect_dates current_date matches'
                             (dates_found ++ [strftime_dBY t])
          else collect_dates current_date matches' dates_found
      | None => collect_dates current_date matches' dates_found
      end
  end.

Definition extract_future_dates (now : datetime) (text : string)
  : result (list string * nat) :=
  let matches := re_finditer re_I date_pattern text in
  let current_date := now in
  dates_found <- collect_dates current_date matches [] ;;
  let unique_dates := sorted (list_set dates_found) in
  Ok (unique_dates, List.length unique_dates).

(* ================================================================== *)
(** ** [extract_case_numbers] *)

(** [\b(?:[A-Z.\(\) ]+)?No\.?\s*\d+[\/\-]?\d{4}\b] *)
Definition case_pattern : regex :=
  seqs
    [WordB;
     opt (plus (Cls [CRange "A" "Z"; CLit "."; CLit "("; CLit ")"; CLit " "]));
     lit "No"; opt (Chr "."); star s_; plus d_;
     opt (Cls [CLit "/"; CLit "-"]); exactly 4 d_;
     WordB].

Definition nonempty (s : string) : bool :=
  match s with EmptyString => false | String _ _ => true end.

Definition extract_case_numbers (text : string) : list string * nat :=
  let matches := re_findall re_I case_pattern text in
  let case_numbers :=
    list_set (List.map strip (List.filter (fun m => nonempty (strip m)) matches)) in
  (case_numbers, List.length case_numbers).

(* ================================================================== *)
(** ** [generate_case_timeline] *)

Inductive status : Type := Completed | Upcoming.

Definition status_str (s : status) : string :=
  match s with
  | Completed => "✅ Completed"
  | Upcoming => "⏳ Upcoming"
  end.

(** An element of [events]: [(parsed_date, date_str, event_text, status)] *)
Record event : Type := {
  parsed_date : datetime;
  date_str : string;
  event_text : string;
  ev_status : status
}.

Definition timeline_date_pattern : regex :=
  seqs
    [WordB;
     alts
       [seqs [rep 1 2 d_; star s_; months_re; opt (Cls [CLit ","]); star s_;
              exactly 4 d_];
        seqs [months_re; star s_; rep 1 2 d_; opt (Chr ","); star s_;
              exactly 4 d_];
        seqs [months_re; star s_; exactly 4 d_];
        seqs [exactly 4 d_; Chr "-"; exactly 2 d_; Chr "-"; exactly 2 d_]];
     WordB].

(** [(?<=[.!?])\s+] *)
Definition sentence_boundary : regex :=
  Seq (Behind [CLit "."; CLit "!"; CLit "?"]) (plus s_).

Definition timeline_formats : list string :=
  ["%d %B %Y"; "%B %d %Y"; "%B %Y"; "%Y-%m-%d"].

(** The inner loop of the timeline: here [except Exception] swallows
    every exception. *)
Fixpoint try_formats_any (s : string) (fmts : list string) : option datetime :=
  match fmts with
  | [] => None
  | fmt :: fmts' =>
      match strptime s fmt with
      | Ok t => Some t
      | Raise _ => try_formats_any s fmts'
      end
  end.

(** [(January|...|December)\s+(\d{4})] *)
Definition month_year_pattern : regex :=
  seqs [Group "1" months_re; plus s_; Group "2" (exactly 4 d_)].

(** The date of a sentence's match: the formats first, then the
    month-year fallback, whose [strptime] is outside every [try]. *)
Definition timeline_parse (date_str : string) : result (option datetime) :=
  match try_formats_any (replace "," "" date_str) timeline_formats with
  | Some t => Ok (Some t)
  | None =>
      match re_match re_I month_year_pattern date_str with
      | Some month_match =>
          let month_name := group_or_empty "1" month_match in
          let year := group_or_empty "2" month_match in
          t <- strptime ("15 " ++ month_name ++ " " ++ year)%string "%d %B %Y" ;;
          Ok (Some t)
      | None => Ok None
      end
  end.

(** The cleaned description of a sentence. *)
Definition clean_event_text (sentence : string) : string :=
  let event_text :=
    strip (re_sub no_flags timeline_date_pattern (fun _ => EmptyString) sentence) in
  let event_text := re_sub no_flags (plus s_) (fun _ => " ") event_text in
  strip (replace " - " "; " event_text).

(** The loop over the sentences. *)
Fixpoint collect_events (current_date : datetime) (sentences : list string)
         (events : list event) : result (list event) :=
  match sentences with
  | [] => Ok events
  | sentence :: sentences' =>
      match re_search re_I timeline_date_pattern sentence with
      | None => collect_events current_date sentences' events
      | Some m =>
          let date_str := strip (group0 m) in
          parsed <- timeline_parse date_str ;;
          match parsed with
          | None => collect_events current_date sentences' events
          | Some t =>
              let event_text := clean_event_text sentence in
              if (String.length event_text <? 5)%nat
              then collect_events current_date sentences' events
              else
                let st := if dt_ltb t current_date then Completed else Upcoming in
                collect_events current_date sentences'
                  (events ++ [{| parsed_date := t; date_str := date_str;
                                 event_text := event_text; ev_status := st |}])
          end
      end
  end.

(** [events.sort(key=lambda x: x[0])] *)
Definition sort_events (events : list event) : list event :=
  sort_by (fun a b => dt_leb (parsed_date a) (parsed_date b)) events.

(** The events of a text, in table order. *)
Definition timeline_events (now : datetime) (text : string)
  : result (list event) :=
  let sentences := re_split no_flags sentence_boundary text in
  events <- collect_events now sentences [] ;;
  Ok (sort_events events).

Definition newline : string := String "010" EmptyString.

Definition table_header : string :=
  "| **Date** | **Event** | **Status** |" ++ newline ++
  "|-----------|------------|-------------|" ++ newline.

Definition table_row (e : event) : string :=
  let short_event :=
    (firstn 120 (event_text e)
     ++ (if (120 <? String.length (event_text e))%nat then "..." else ""))%string in
  "| " ++ date_str e ++ " | " ++ short_event ++ " | "
       ++ status_str (ev_status e) ++ " |" ++ newline.

Definition render_table (events : list event) : string :=
  fold_left (fun table e => (table ++ table_row e)%string) events table_header.

Definition generate_case_timeline (now : datetime) (text : string)
  : result string :=
  events <- timeline_events now text ;;
  match events with
  | [] => Ok "No timeline events detected."
  | _ => Ok (render_table events)
  end.


(* ================================================================== *)
(** ** [json.loads] *)

(** A decoded JSON value.  A number keeps its numeral as written; an
    object is a [dict]: keys in order of first appearance, the last value
    of a repeated key. *)
#[warnings="-register-all"]
Inductive json : Type :=
| JNull
| JBool (b : bool)
| JNumber (numeral : string)
| JString (s : string)
| JArray (items : list json)
| JObject (members : list (string * json)).

Definition dquote : ascii := "034".
Definition backslash : ascii := "092".

Fixpoint dict_set (k : string) (v : json) (d : list (string * json))
  : list (string * json) :=
  match d with
  | [] => [(k, v)]
  | (k', v') :: d' =>
      if String.eqb k' k then (k', v) :: d' else (k', v') :: dict_set k v d'
  end.

(** [dict(pairs)] *)
Definition dict_of (pairs : list (string * json)) : list (string * json) :=
  fold_left (fun d kv => dict_set (fst kv) (snd kv) d) pairs [].

(** [d.get(k)] *)
Fixpoint dict_get (k : string) (d : list (string * json)) : option json :=
  match d with
  | [] => None
  | (k', v) :: d' => if String.eqb k' k then Some v else dict_get k d'
  end.

Definition is_json_ws (c : ascii) : bool :=
  (code c =? 32)%N || (code c =? 9)%N || (code c =? 10)%N || (code c =? 13)%N.

Fixpoint skip_ws (s : string) : string :=
  match s with
  | String c s' => if is_json_ws c then skip_ws s' else s
  | EmptyString => EmptyString
  end.

Definition hex_val (c : ascii) : option N :=
  if is_digit c then Some (code c - 48)%N
  else if in_range "a" "f" c then Some (code c - 87)%N
  else if in_range "A" "F" c then Some (code c - 55)%N
  else None.

(** The four hexadecimal digits of a [\u] escape. *)
Definition hex4 (s : string) : option (N * string) :=
  match s with
  | String a (String b (String c (String d s'))) =>
      match hex_val a, hex_val b, hex_val c, hex_val d with
      | Some x, Some y, Some z, Some w =>
          Some (((x * 16 + y) * 16 + z) * 16 + w, s')%N
      | _, _, _, _ => None
      end
  | _ => None
  end.

(** The UTF-8 bytes of a code point. *)
Definition utf8 (cp : N) : string :=
  let byte (n : N) := ascii_of_N n in
  let cont (n : N) := byte (128 + n mod 64)%N in
  if (cp <? 128)%N then String (byte cp) EmptyString
  else if (cp <? 2048)%N then
    String (byte (192 + cp / 64)%N) (String (cont cp) EmptyString)
  else if (cp <? 65536)%N then
    String (byte (224 + cp / 4096)%N)
      (String (cont (cp / 64)%N) (String (cont cp) EmptyString))
  else
    String (byte (240 + cp / 262144)%N)
      (String (cont (cp / 4096)%N)
         (String (cont (cp / 64)%N) (String (cont cp) EmptyString))).

Definition simple_escape (c : ascii) : option ascii :=
  if Ascii.eqb c dquote then Some dquote
  else if Ascii.eqb c backslash then Some backslash
  else if Ascii.eqb c "/" then Some "/"%char
  else if Ascii.eqb c "b" then Some "008"%char
  else if Ascii.eqb c "f" then Some "012"%char
  else if Ascii.eqb c "n" then Some "010"%char
  else if Ascii.eqb c "r" then Some "013"%char
  else if Ascii.eqb c "t" then Some "009"%char
  else None.

(** [py_scanstring], strict: the text after an opening quote up to the
    closing one, escapes decoded; [acc] is the decoded text, reversed. *)
Fixpoint scanstring (fuel : nat) (s : string) (acc : string)
  : result (string * string) :=
  match fuel with
  | O => Raise (JSONDecodeError "Unterminated string")
  | S fuel' =>
      match s with
      | EmptyString => Raise (JSONDecodeError "Unterminated string")
      | String c s' =>
          if Ascii.eqb c dquote then Ok (rev acc, s')
          else if (code c <? 32)%N
          then Raise (JSONDecodeError "Invalid control character")
          else if Ascii.eqb c backslash then
            match s' with
            | EmptyString => Raise (JSONDecodeError "Unterminated string")
            | String e s'' =>
                if Ascii.eqb e "u" then
                  match hex4 s'' with
                  | None => Raise (JSONDecodeError "Invalid \uXXXX escape")
                  | Some (hi, s3) =>
                      let single :=
                        scanstring fuel' s3 (rev_append (utf8 hi) acc) in
                      if ((55296 <=? hi) && (hi <=? 56319))%N then
                        match s3 with
                        | String b1 (String b2 s4) =>
                            if Ascii.eqb b1 backslash && Ascii.eqb b2 "u" then
                              match hex4 s4 with
                              | Some (lo, s5) =>
                                  if ((56320 <=? lo) && (lo <=? 57343))%N
                                  then scanstring fuel' s5
                                         (rev_append
                                            (utf8 (65536 + (hi - 55296) * 1024
                                                   + (lo - 56320))%N) acc)
                                  else single
                              | None => single
                              end
                            else single
                        | _ => single
                        end
                      else single
                  end
                else
                  match simple_escape e with
                  | Some x => scanstring fuel' s'' (String x acc)
                  | None => Raise (JSONDecodeError "Invalid \escape")
                  end
            end
          else scanstring fuel' s' (String c acc)
      end
  end.

(** [NUMBER_RE]: an optional minus sign and 0 or a numeral without
    leading zero (group int), an optional fraction (group frac), an
    optional exponent (group exp). *)
Definition number_re : regex :=
  seqs [Group "int" (Seq (opt (Chr "-"))
                         (Alt (Chr "0") (Seq (Cls [CRange "1" "9"]) (star d_))));
        opt (Group "frac" (Seq (Chr ".") (plus d_)));
        opt (Group "exp" (seqs [Cls [CLit "e"; CLit "E"];
                                opt (Cls [CLit "-"; CLit "+"]); plus d_]))].

Definition expecting_value : exn := JSONDecodeError "Expecting value".

(** [scan_once], with [JSONObject] and [JSONArray]: the value that
    starts at the head of [s], and the text after it. *)
Fixpoint scan_once (fuel : nat) (s : string) : result (json * string) :=
  match fuel with
  | O => Raise (OtherError "maximum recursion depth exceeded")
  | S fuel' =>
      match s with
      | EmptyString => Raise expecting_value
      | String c s' =>
          if Ascii.eqb c dquote then
            r <- scanstring (String.length s) s' EmptyString ;;
            Ok (JString (fst r), snd r)
          else if Ascii.eqb c "{" then
            match skip_ws s' with
            | String c1 s1 =>
                if Ascii.eqb c1 "}" then Ok (JObject [], s1)
                else if Ascii.eqb c1 dquote then object_members fuel' s1 []
                else Raise (JSONDecodeError
                              "Expecting property name enclosed in double quotes")
            | EmptyString =>
                Raise (JSONDecodeError
                         "Expecting property name enclosed in double quotes")
            end
          else if Ascii.eqb c "[" then
            match skip_ws s' with
            | String c1 s1 =>
                if Ascii.eqb c1 "]" then Ok (JArray [], s1)
                else array_items fuel' (skip_ws s') []
            | EmptyString => Raise expecting_value
            end
          else if prefix "null" s then Ok (JNull, skipn 4 s)
          else if prefix "true" s then Ok (JBool true, skipn 4 s)
          else if prefix "false" s then Ok (JBool false, skipn 5 s)
          else
            match re_match no_flags number_re s with
            | Some m => Ok (JNumber (group0 m), rest (m_end m))
            | None =>
                if prefix "NaN" s then Ok (JNumber "NaN", skipn 3 s)
                else if prefix "Infinity" s then Ok (JNumber "Infinity", skipn 8 s)
                else if prefix "-Infinity" s
                then Ok (JNumber "-Infinity", skipn 9 s)
                else Raise expecting_value
            end
      end
  end

(** the members of an object, from just after the opening quote of a key *)
with object_members (fuel : nat) (s : string) (pairs : list (string * json))
  : result (json * string) :=
  match fuel with
  | O => Raise (OtherError "maximum recursion depth exceeded")
  | S fuel' =>
      k <- scanstring (S (String.length s)) s EmptyString ;;
      match skip_ws (snd k) with
      | String c s1 =>
          if Ascii.eqb c ":" then
            v <- scan_once fuel' (skip_ws s1) ;;
            let pairs' := pairs ++ [(fst k, fst v)] in
            match skip_ws (snd v) with
            | String c2 s2 =>
                if Ascii.eqb c2 "}" then Ok (JObject (dict_of pairs'), s2)
                else if Ascii.eqb c2 "," then
                  match skip_ws s2 with
                  | String c3 s3 =>
                      if Ascii.eqb c3 dquote then object_members fuel' s3 pairs'
                      else Raise (JSONDecodeError
                             "Expecting property name enclosed in double quotes")
                  | EmptyString =>
                      Raise (JSONDecodeError
                             "Expecting property name enclosed in double quotes")
                  end
                else Raise (JSONDecodeError "Expecting ',' delimiter")
            | EmptyString => Raise (JSONDecodeError "Expecting ',' delimiter")
            end
          else Raise (JSONDecodeError "Expecting ':' delimiter")
      | EmptyString => Raise (JSONDecodeError "Expecting ':' delimiter")
      end
  end

(** the items of an array, from the head of an item *)
with array_items (fuel : nat) (s : string) (items : list json)
  : result (json * string) :=
  match fuel with
  | O => Raise (OtherError "maximum recursion depth exceeded")
  | S fuel' =>
      v <- scan_once fuel' s ;;
      let items' := items ++ [fst v] in
      match skip_ws (snd v) with
      | String c s1 =>
          if Ascii.eqb c "]" then Ok (JArray items', s1)
          else if Ascii.eqb c "," then array_items fuel' (skip_ws s1) items'
          else Raise (JSONDecodeError "Expecting ',' delimiter")
      | EmptyString => Raise (JSONDecodeError "Expecting ',' delimiter")
      end
  end.

(** [json.loads(s)] *)
Definition json_loads (s : string) : result json :=
  r <- scan_once (S (String.length s)) (skip_ws s) ;;
  match skip_ws (snd r) with
  | EmptyString => Ok (fst r)
  | String _ _ => Raise (JSONDecodeError "Extra data")
  end.
(* ================================================================== *)
(** ** The external services

    The text-understanding service, the PDF reader, the token check and
    the clock are the collaborators of the pipeline; they are the fields
    of [services].  A failing call is a [Raise]. *)

Record services : Type := {
  (** [model.generate_content(prompt).text] *)
  generate_content : string -> result string;
  (** [PdfReader(path).pages], each page already through
      [extract_text()]; the argument is the content written to the
      temporary file.  A page without text is the empty string. *)
  pdf_pages : string -> result (list string);
  (** [auth.verify_id_token(id_token)]: the uid of the decoded token *)
  verify_id_token : string -> result string;
  (** the successive values of [datetime.datetime.now()] *)
  clock : nat -> datetime
}.

Open Scope string_scope.

Definition quoted (s : string) : string :=
  String dquote s ++ String dquote EmptyString.

Fixpoint unlines (l : list string) : string :=
  match l with
  | [] => EmptyString
  | [x] => x
  | x :: l' => x ++ newline ++ unlines l'
  end.

Definition structured_prompt (text : string) : string :=
  let field (indent name : string) := indent ++ quoted name ++ ": " ++ quoted "" in
  unlines
    [""; 
     "    You are a legal document parser. Extract the following structured details";
     "    from the case text below. If a field is not present, return null.";
     "";
     "    Fields to extract (in JSON):";
     "    {";
     field "      " "Case_Name" ++ ",";
     "      " ++ quoted "Parties" ++ ": {";
     field "        " "Petitioner" ++ ",";
     field "        " "Respondent";
     "      },";
     field "      " "Court_Name" ++ ",";
     field "      " "Judge" ++ ",";
     "      " ++ quoted "Sections_Invoked" ++ ": [],";
     field "      " "Facts" ++ ",";
     field "      " "Judgment" ++ ",";
     field "      " "Final_Order" ++ ",";
     field "      " "Date_of_Judgment";
     "    }";
     "";
     "    Case Text:";
     "    " ++ text;
     "    "].

Definition summary_prompt (text : string) : string :=
  "Summarize this legal document clearly and concisely. "
  ++ "Focus on case facts, sections, judgment, and conclusion:"
  ++ newline ++ newline ++ text.

(** [except Exception as e: raise HTTPException(500, detail=f"...{e}")] *)
Definition reraise_500 {A : Type} (stage : string) (r : result A) : result A :=
  match r with
  | Ok a => Ok a
  | Raise e => Raise (HTTPException 500 (stage ++ exn_str e))
  end.

(** [extract_text_from_pdf] *)
Definition extract_text_from_pdf (sv : services) (pdf : string) : result string :=
  text <- reraise_500 "PDF extraction failed: "
            (pages <- pdf_pages sv pdf ;;
             Ok (fold_left
                   (fun text content =>
                      if nonempty content then text ++ content ++ newline
                      else text)
                   pages EmptyString)) ;;
  Ok (strip text).

(** [summarize_with_gemini] *)
Definition summarize_with_gemini (sv : services) (text : string) : result string :=
  reraise_500 "Gemini summarization failed: "
              (generate_content sv (summary_prompt text)).

(** The first brace through the last one: an opening brace, anything
    (DOTALL, greedy), a closing brace. *)
Definition json_span : regex := seqs [Chr "{"; star Dot; Chr "}"].

Definition no_json_found : json :=
  JObject [("error", JString "No structured JSON found")].

(** [extract_structured_summary] *)
Definition extract_structured_summary (sv : services) (text : string)
  : result json :=
  let prompt := structured_prompt text in
  reraise_500 "Gemini extraction failed: "
    (response_text <- generate_content sv prompt ;;
     match re_search re_S json_span response_text with
     | Some m => json_loads (group0 m)
     | None => Ok no_json_found
     end).

Open Scope list_scope.

(* ================================================================== *)
(** ** [upload_and_summarize]

    The handler writes each upload to a temporary file and removes it in
    a [finally]; that file does not reach the response and is left out.
    What the handler changes outside itself is the Firestore collection
    and the reading of the clock: the [world].  Writing to Firestore is
    taken to succeed. *)

Record upload_file : Type := { filename : string; file_content : string }.

Record metadata : Type := {
  upcoming_dates_count : nat;
  sections_count : nat;
  case_numbers_count : nat;
  case_numbers_list : list string
}.

(** An element of the response's ["summaries"] *)
Record document_result : Type := {
  r_filename : string;
  r_summary : string;
  r_structured_summary : json;
  r_metadata : metadata;
  r_timeline : string
}.

(** A document of the [summaries] collection, without the timestamp the
    server adds *)
Record stored_summary : Type := {
  s_user_id : string;
  s_client_name : string;
  s_file_type : string;
  s_result : document_result
}.

Record world : Type := { firestore : list stored_summary; ticks : nat }.

Definition action (A : Type) : Type := world -> world * result A.

Definition ret {A : Type} (a : A) : action A := fun w => (w, Ok a).

Definition lift {A : Type} (r : result A) : action A := fun w => (w, r).

Definition and_then {A B : Type} (m : action A) (k : A -> action B) : action B :=
  fun w =>
    match m w with
    | (w', Ok a) => k a w'
    | (w', Raise e) => (w', Raise e)
    end.

Notation "x <~ m ;; k" := (and_then m (fun x => k))
  (at level 61, m at next level, right associativity).

(** [datetime.datetime.now()] *)
Definition datetime_now (sv : services) : action datetime :=
  fun w => ({| firestore := firestore w; ticks := S (ticks w) |},
            Ok (clock sv (ticks w))).

(** [db.collection("summaries").document().set(...)] *)
Definition firestore_set (d : stored_summary) : action unit :=
  fun w => ({| firestore := firestore w ++ [d]; ticks := ticks w |}, Ok tt).

(** Whether a numeral denotes zero: no digit from 1 to 9 before the
    exponent. *)
Fixpoint mantissa_zero (s : string) : bool :=
  match s with
  | EmptyString => true
  | String c s' =>
      if Ascii.eqb c "e" || Ascii.eqb c "E" then true
      else if in_range "1" "9" c then false
      else mantissa_zero s'
  end.

Definition numeral_is_zero (n : string) : bool :=
  negb (prefix "NaN" n || prefix "Infinity" n || prefix "-Infinity" n)
  && mantissa_zero n.

(** The truth value of a decoded JSON value *)
Definition truthy (j : json) : bool :=
  match j with
  | JNull => false
  | JBool b => b
  | JNumber n => negb (numeral_is_zero n)
  | JString s => nonempty s
  | JArray items => match items with [] => false | _ => true end
  | JObject members => match members with [] => false | _ => true end
  end.

(** [len(j)] *)
Definition py_len (j : json) : result nat :=
  match j with
  | JString s => Ok (String.length s)
  | JArray items => Ok (List.length items)
  | JObject members => Ok (List.length members)
  | _ => Raise (TypeError "object has no len()")
  end.

(** [len(structured_data.get("Sections_Invoked", [])) if structured_data else 0] *)
Definition sections_found_count (structured_data : json) : result nat :=
  if truthy structured_data then
    match structured_data with
    | JObject members =>
        py_len (match dict_get "Sections_Invoked" members with
                | Some v => v
                | None => JArray []
                end)
    | _ => Raise (AttributeError "object has no attribute 'get'")
    end
  else Ok 0%nat.

(** The body of the loop over the files: [None] when the file is
    skipped by [continue]. *)
Definition process_file (sv : services) (user_id client_name file_type : string)
           (file : upload_file) : action (option document_result) :=
  text <~ lift (extract_text_from_pdf sv (file_content file)) ;;
  if negb (nonempty text) then ret None
  else
    summary <~ lift (summarize_with_gemini sv text) ;;
    structured_data <~ lift (extract_structured_summary sv text) ;;
    now1 <~ datetime_now sv ;;
    dates <~ lift (extract_future_dates now1 text) ;;
    let '(future_dates, date_count) := dates in
    let '(case_numbers, case_number_count) := extract_case_numbers text in
    now2 <~ datetime_now sv ;;
    timeline_table <~ lift (generate_case_timeline now2 text) ;;
    sections_found_count <~ lift (sections_found_count structured_data) ;;
    let metadata :=
      {| upcoming_dates_count := date_count;
         sections_count := sections_found_count;
         case_numbers_count := case_number_count;
         case_numbers_list := case_numbers |} in
    let doc :=
      {| r_filename := filename file; r_summary := summary;
         r_structured_summary := structured_data;
         r_metadata := metadata; r_timeline := timeline_table |} in
    _ <~ firestore_set {| s_user_id := user_id; s_client_name := client_name;
                          s_file_type := file_type; s_result := doc |} ;;
    ret (Some doc).

(** [for file in files: ...], [summaries] being the list built so far *)
Fixpoint process_files (sv : services) (user_id client_name file_type : string)
         (files : list upload_file) (summaries : list document_result)
  : action (list document_result) :=
  match files with
  | [] => ret summaries
  | file :: files' =>
      r <~ process_file sv user_id client_name file_type file ;;
      process_files sv user_id client_name file_type files'
        (match r with
         | Some doc => summaries ++ [doc]
         | None => summaries
         end)
  end.

(** [s.split(sep)] for a non-empty [sep]; [piece] is the current piece,
    reversed, [skip] the characters of a separator still to be dropped. *)
Fixpoint str_split_from (sep : string) (skip : nat) (piece : string) (s : string)
  : list string :=
  match s with
  | EmptyString => [rev piece]
  | String c s' =>
      match skip with
      | S k => str_split_from sep k piece s'
      | O =>
          if prefix sep s
          then rev piece :: str_split_from sep (String.length sep - 1) EmptyString s'
          else str_split_from sep 0 (String c piece) s'
      end
  end.

Definition str_split (sep s : string) : list string :=
  str_split_from sep 0 EmptyString s.

(** [verify_firebase_token]: any failure of the check is [None] *)
Definition verify_firebase_token (sv : services) (id_token : string)
  : option string :=
  match verify_id_token sv id_token with
  | Ok uid => Some uid
  | Raise _ => None
  end.

(** The handler of [POST /upload/]; the response is the list under
    ["summaries"]. *)
Definition upload_and_summarize (sv : services) (files : list upload_file)
           (client_name file_type : string) (authorization : option string)
  : action (list document_result) :=
  match authorization with
  | None =>
      lift (Raise (HTTPException 401 "Missing or invalid Authorization header"))
  | Some authorization =>
      if negb (nonempty authorization) || negb (prefix "Bearer " authorization)
      then lift (Raise (HTTPException 401
                          "Missing or invalid Authorization header"))
      else
        let id_token := nth 1 (str_split "Bearer " authorization) EmptyString in
        match verify_firebase_token sv id_token with
        | None => lift (Raise (HTTPException 403
                                 "Invalid or expired Firebase token"))
        | Some user_id =>
            process_files sv user_id client_name file_type files []
        end
  end.

(* ================================================================== *)
(** ** [get_gemini_model]

    The model service is a collaborator: [get_model] answers or fails
    for a name; [list_models] is an iteration, each step of which yields
    a model or fails.  [genai.GenerativeModel(name)] only builds the
    client object for a name and is taken not to fail; the result
    records which name it was given.  [RuntimeError] is an
    [OtherError]. *)

Record model_info : Type := {
  name : string;
  supported_generation_methods : list string
}.

Record genai : Type := {
  (** [genai.get_model(name)] *)
  get_model : string -> result model_info;
  (** [genai.list_models()], step by step *)
  list_models : list (result model_info)
}.

(** The model the function returns: which [return] it left by, and the
    name given to [GenerativeModel]. *)
Inductive selected : Type :=
| Preferred (model_name : string)
| Fallback (model_name : string).

Definition preferred_models : list string :=
  ["gemini-2.5-flash"; "gemini-1.5-flash"; "gemini-1.0-pro"].

(** ['generateContent' in info.supported_generation_methods] *)
Definition supports_generate (info : model_info) : bool :=
  existsb (String.eqb "generateContent") (supported_generation_methods info).

(** The first loop: a failure of [get_model] moves on to the next name. *)
Fixpoint try_preferred (api : genai) (names : list string) : option string :=
  match names with
  | [] => None
  | model_name :: names' =>
      match get_model api ("models/" ++ model_name) with
      | Ok model_info =>
          if supports_generate model_info then Some model_name
          else try_preferred api names'
      | Raise _ => try_preferred api names'
      end
  end.

Definition no_model_found : exn :=
  OtherError "❌ No supported Gemini model found. Please check your API key and model availability.".

(** The second loop: a failure of the iteration is not caught. *)
Fixpoint first_listed (models : list (result model_info)) : result selected :=
  match models with
  | [] => Raise no_model_found
  | Raise e :: _ => Raise e
  | Ok m :: models' =>
      if supports_generate m then Ok (Fallback (name m))
      else first_listed models'
  end.

Definition get_gemini_model (api : genai) : result selected :=
  match try_preferred api preferred_models with
  | Some model_name => Ok (Preferred model_name)
  | None => first_listed (list_models api)
  end.

(* ================================================================== *)
(** ** The client of [src/app.py] *)

(** The [Authorization] header the client of [src/app.py] sends for an
    ID token: [f"Bearer {id_token}"] *)
Definition authorization_header (id_token : string) : string :=
  ("Bearer " ++ id_token)%string.

(* ================================================================== *)
(** ** Notions used by the statements below *)

(** *** Dates of a text *)

(** The date a matched substring contributes, if any. *)
Definition parsed_of (m : rmatch) : list datetime :=
  match parse_date_str (strip (group0 m)) with
  | Ok (Some t) => [t]
  | _ => []
  end.

(** The dates parsed from the matches of a text, in text order. *)
Definition parsed_dates (text : string) : list datetime :=
  flat_map parsed_of (re_finditer re_I date_pattern text).



(** An expression without capturing group *)
Fixpoint nogroup (r : regex) : bool :=
  match r with
  | Seq r1 r2 | Alt r1 r2 => nogroup r1 && nogroup r2
  | Rep _ _ r' => nogroup r'
  | Group _ _ => false
  | _ => true
  end.

(** *** Events of a text *)

(** What a sentence contributes to the timeline before its status is
    known: the parsed date, the matched text, the description. *)
Definition candidate : Type := (datetime * string * string)%type.

(** The body of the loop of [generate_case_timeline] up to the status:
    it does not read the clock. *)
Definition sentence_candidate (sentence : string) : result (option candidate) :=
  match re_search re_I timeline_date_pattern sentence with
  | None => Ok None
  | Some m =>
      let date_str := strip (group0 m) in
      parsed <- timeline_parse date_str ;;
      match parsed with
      | None => Ok None
      | Some t =>
          let event_text := clean_event_text sentence in
          if (String.length event_text <? 5)%nat then Ok None
          else Ok (Some (t, date_str, event_text))
      end
  end.

Fixpoint candidates (sentences : list string) : result (list candidate) :=
  match sentences with
  | [] => Ok []
  | sentence :: sentences' =>
      c <- sentence_candidate sentence ;;
      cs <- candidates sentences' ;;
      Ok (match c with Some x => x :: cs | None => cs end)
  end.

(** The status the loop gives a date parsed at time [now] *)
Definition classify (now t : datetime) : status :=
  if dt_ltb t now then Completed else Upcoming.

Definition make_event (now : datetime) (c : candidate) : event :=
  let '(t, ds, txt) := c in
  {| parsed_date := t; date_str := ds; event_text := txt;
     ev_status := classify now t |}.

(** [a == b] on [datetime] values *)
Definition dt_eqb (a b : datetime) : bool :=
  match dt_compare a b with Eq => true | _ => false end.

(** The events of one date *)
Definition on_date (d : datetime) (e : event) : bool :=
  dt_eqb (parsed_date e) d.

(** The status of an event agrees with the comparison of its date with
    the clock. *)
Definition status_matches (now : datetime) (e : event) : Prop :=
  (ev_status e = Completed <-> dt_ltb (parsed_date e) now = true)
  /\ (ev_status e = Upcoming <-> dt_ltb (parsed_date e) now = false).

(** *** Spans of an answer *)

(** [a in s] for a character *)
Fixpoint has_char (a : ascii) (s : string) : bool :=
  match s with
  | EmptyString => false
  | String c s' => Ascii.eqb a c || has_char a s'
  end.

(** [needle in hay] on strings *)
Fixpoint contains (needle hay : string) : bool :=
  prefix needle hay
  || match hay with
     | EmptyString => false
     | String _ hay' => contains needle hay'
     end.

(** A text has a brace-delimited span when an opening brace is followed,
    somewhere, by a closing one. *)
Definition has_brace_span (s : string) : Prop :=
  exists pre mid post, s = (pre ++ "{" ++ mid ++ "}" ++ post)%string.

(** The positions of a subject from [s] on, the furthest first: what a
    greedy [.*] under DOTALL offers, in this order. *)
Fixpoint positions (b s : string) (k : list (string * string)) : list cursor :=
  match s with
  | EmptyString => [{| before := b; rest := EmptyString; caps := k |}]
  | String x s' =>
      positions (String x b) s' k ++ [{| before := b; rest := s; caps := k |}]
  end.

(** *** Stages of the pipeline *)

(** The stages that call a collaborator and re-raise its failure *)
Inductive stage : Type := PdfExtraction | Summarization | StructuredExtraction.

(** The prefix of the error detail each stage writes *)
Definition stage_label (s : stage) : string :=
  match s with
  | PdfExtraction => "PDF extraction failed: "
  | Summarization => "Gemini summarization failed: "
  | StructuredExtraction => "Gemini extraction failed: "
  end.

(** The answer of the structured-extraction prompt, decoded: what the
    [try] block of [extract_structured_summary] computes. *)
Definition structured_attempt (sv : services) (text : string) : result json :=
  response_text <- generate_content sv (structured_prompt text) ;;
  match re_search re_S json_span response_text with
  | Some m => json_loads (group0 m)
  | None => Ok no_json_found
  end.

(** Stage [s] fails with [e] on a document of content [pdf], the
    earlier stages having succeeded. *)
Definition stage_fails (sv : services) (pdf : string) (s : stage) (e : exn)
  : Prop :=
  match s with
  | PdfExtraction => pdf_pages sv pdf = Raise e
  | Summarization =>
      exists text,
        extract_text_from_pdf sv pdf = Ok text /\ nonempty text = true
        /\ generate_content sv (summary_prompt text) = Raise e
  | StructuredExtraction =>
      exists text summary,
        extract_text_from_pdf sv pdf = Ok text /\ nonempty text = true
        /\ generate_content sv (summary_prompt text) = Ok summary
        /\ structured_attempt sv text = Raise e
  end.

(** *** Sample inputs *)

(** The text of the specification's round-trip scenario *)
Definition scenario_text : string :=
  "The hearing is scheduled for 15 March 2099. Case No. 45/2021 was filed.".

Definition early_2025 : datetime :=
  {| year := 2025; month := 1; day := 1;
     hour := 10; minute := 0; second := 0; microsecond := 0 |}.

Definition mid_march_2026 : datetime :=
  {| year := 2026; month := 3; day := 10;
     hour := 12; minute := 0; second := 0; microsecond := 0 |}.

(** Three sentences, two of them about the same day *)
Definition timeline_sample_now : datetime :=
  {| year := 2025; month := 6; day := 1;
     hour := 9; minute := 30; second := 0; microsecond := 0 |}.

Definition timeline_sample_text : string :=
  "Notice was issued on 3 January 2030. The suit was filed on 2 May 2019. Arguments resume on 2030-01-03 before the bench.".

Definition timeline_sample_events : list event :=
  [{| parsed_date := midnight 2019 5 2; date_str := "2 May 2019";
      event_text := "The suit was filed on ."; ev_status := Completed |};
   {| parsed_date := midnight 2030 1 3; date_str := "3 January 2030";
      event_text := "Notice was issued on ."; ev_status := Upcoming |};
   {| parsed_date := midnight 2030 1 3; date_str := "2030-01-03";
      event_text := "Arguments resume on before the bench.";
      ev_status := Upcoming |}].

(** The answer of the specification's scenario: prose around a JSON
    object. *)
Definition prose_response : string :=
  ("Here is the data: {" ++ quoted "Case_Name" ++ ": " ++ quoted "X"
   ++ "} — hope this helps")%string.

(** A service that always answers [response] *)
Definition answering (response : result string) : services :=
  {| generate_content := fun _ => response;
     pdf_pages := fun pdf => Ok [pdf];
     verify_id_token := fun id_token => Ok id_token;
     clock := fun _ => midnight 2025 1 1 |}.

(** A service for two documents: it answers every prompt except those
    about an appeal, on which it fails. *)
Definition failing_on_appeal : services :=
  {| generate_content :=
       fun prompt =>
         if contains "appeal" prompt then Raise (OtherError "quota exceeded")
         else Ok "{}";
     pdf_pages := fun pdf => Ok [pdf];
     verify_id_token := fun id_token => Ok id_token;
     clock := fun _ => midnight 2025 1 1 |}.

Definition two_uploads : list upload_file :=
  [{| filename := "order.pdf";
      file_content := "The order was passed on 3 January 2020." |};
   {| filename := "notice.pdf";
      file_content := "The appeal is listed on 15 March 2099." |}].

Definition empty_world : world := {| firestore := []; ticks := 0 |}.

(** *** The timeline without the clock *)

(** What a row of the timeline shows of an event besides its status *)
Definition row_data (e : event) : candidate :=
  (parsed_date e, date_str e, event_text e).

(** The order of the timeline on candidates *)
Definition candidate_leb (a b : candidate) : bool :=
  dt_leb (fst (fst a)) (fst (fst b)).

(** *** What the handler stores *)

(** The Firestore document written for a result *)
Definition stored_as (user_id client_name file_type : string)
           (doc : document_result) : stored_summary :=
  {| s_user_id := user_id; s_client_name := client_name;
     s_file_type := file_type; s_result := doc |}.

(** [l] is [l'] with some elements left out, the order kept *)
Inductive subseq {A : Type} : list A -> list A -> Prop :=
| subseq_nil : subseq [] []
| subseq_skip (x : A) (l l' : list A) : subseq l l' -> subseq l (x :: l')
| subseq_take (x : A) (l l' : list A) : subseq l l' -> subseq (x :: l) (x :: l').

(** An answer whose sections field is null, as the prompt asks for a
    field that is not present *)
Definition null_sections_response : string :=
  ("{" ++ quoted "Case_Name" ++ ": " ++ quoted "State v. Rao" ++ ", "
       ++ quoted "Sections_Invoked" ++ ": null}")%string.

(** A preferred name is usable when the service knows it and it
    generates content. *)
Definition usable (api : genai) (model_name : string) : bool :=
  match get_model api ("models/" ++ model_name) with
  | Ok info => supports_generate info
  | Raise _ => false
  end.

(** A service that knows two of the preferred models, the first of them
    for embeddings only *)
Definition sample_genai : genai :=
  {| get_model :=
       fun n =>
         if String.eqb n "models/gemini-2.5-flash"
         then Ok {| name := n; supported_generation_methods := ["embedContent"] |}
         else if String.eqb n "models/gemini-1.0-pro"
         then Ok {| name := n;
                    supported_generation_methods := ["generateContent"; "countTokens"] |}
         else Raise (OtherError "404 model not found");
     list_models := [Raise (OtherError "listing unavailable")] |}.

(** A service that knows no preferred model and lists two models *)
Definition listing_genai : genai :=
  {| get_model := fun _ => Raise (OtherError "404 model not found");
     list_models :=
       [Ok {| name := "models/embedding-001";
              supported_generation_methods := ["embedContent"] |};
        Ok {| name := "models/gemini-pro-vision";
              supported_generation_methods := ["generateContent"] |};
        Raise (OtherError "listing interrupted")] |}.

(** *** Shapes of strings *)

(** Every character of [s] satisfies [p] *)
Fixpoint all_chars (p : ascii -> bool) (s : string) : bool :=
  match s with
  | EmptyString => true
  | String c s' => p c && all_chars p s'
  end.

(** [s] does not start with white space *)
Definition starts_clean (s : string) : bool :=
  match s with
  | EmptyString => true
  | String c _ => negb (is_space c)
  end.

(** [s] has no white space at either end: [s == s.strip()] *)
Definition is_trimmed (s : string) : bool :=
  starts_clean s && starts_clean (rev s).

(** [s] ends with four decimal digits *)
Definition ends_with_year (s : string) : Prop :=
  exists u d1 d2 d3 d4,
    s = (u ++ String d1 (String d2 (String d3 (String d4 EmptyString))))%string
    /\ is_digit d1 = true /\ is_digit d2 = true
    /\ is_digit d3 = true /\ is_digit d4 = true.

(** *** White space of a description *)

(** Runs of white space replaced by one space each: what
    [re.sub(r'\s+', ' ', s)] is to compute.  [in_run] tells that the
    previous character was white space. *)
Fixpoint collapse (in_run : bool) (s : string) : string :=
  match s with
  | EmptyString => EmptyString
  | String c s' =>
      if is_space c
      then (if in_run then collapse true s' else String " " (collapse true s'))
      else String c (collapse false s')
  end.

(** A character that is not white space, or is the space itself *)
Definition space_or_ink (c : ascii) : bool :=
  negb (is_space c) || Ascii.eqb c " ".

(** *** The text of a PDF *)

(** The pages one after the other, each followed by a line feed *)
Definition concat_pages (pages : list string) : string :=
  fold_right (fun page text => (page ++ newline ++ text)%string)
             EmptyString pages.

(* ================================================================== *)
(** * Properties *)

#[local] Arguments Ascii.eqb : simpl never.

(** ** Exceptions of the date extractor *)

Lemma strptime_raises_ValueError (s fmt : string) (e : exn) :
  strptime s fmt = Raise e -> exists msg, e = ValueError msg.
Proof.
  unfold strptime.
  destruct (pattern fmt) as [re|]; [|intros [= <-]; eauto].
  destruct (re_match re_I re s) as [found|]; [|intros [= <-]; eauto].
  destruct (rest (m_end found)); [|intros [= <-]; eauto].
  destruct (found_month found) as [mo|]; [|intros [= <-]; eauto].
  destruct (found_year found <? 1)%Z; [intros [= <-]; eauto|].
  destruct (days_in_month (found_year found) mo <? found_day found)%Z;
    [intros [= <-]; eauto | discriminate].
Qed.

(** The inner loop catches every exception [strptime] can raise. *)
Lemma try_formats_returns (s : string) (fmts : list string) :
  exists r, try_formats s fmts = Ok r.
Proof.
  induction fmts as [|fmt fmts IH]; simpl; [eauto|].
  destruct (strptime s fmt) as [t|e] eqn:E; [eauto|].
  destruct (strptime_raises_ValueError _ _ _ E) as [msg ->]. exact IH.
Qed.

Lemma parse_date_str_returns (s : string) :
  exists r, parse_date_str s = Ok r.
Proof. unfold parse_date_str. apply try_formats_returns. Qed.

Lemma collect_dates_spec (now : datetime) (ms : list rmatch) (acc : list string) :
  collect_dates now ms acc
  = Ok (acc ++ List.map strftime_dBY
                 (List.filter (dt_ltb now) (flat_map parsed_of ms))).
Proof.
  revert acc. induction ms as [|m ms IH]; intros acc.
  - cbn [collect_dates flat_map List.filter List.map]. now rewrite app_nil_r.
  - cbn [collect_dates flat_map]. unfold parsed_of at 1.
    destruct (parse_date_str_returns (strip (group0 m))) as [r ->].
    cbn [bind]. destruct r as [t|]; cbn [app List.filter]; [|apply IH].
    destruct (dt_ltb now t); rewrite IH; [|reflexivity].
    cbn [List.map]. now rewrite <- app_assoc.
Qed.

(** [extract_future_dates] as one expression over the parsed dates. *)
Lemma extract_future_dates_spec (now : datetime) (text : string) :
  extract_future_dates now text
  = Ok (let unique_dates :=
          sorted (list_set (List.map strftime_dBY
                              (List.filter (dt_ltb now) (parsed_dates text)))) in
        (unique_dates, List.length unique_dates)).
Proof.
  unfold extract_future_dates. rewrite collect_dates_spec. reflexivity.
Qed.

(** ** The scenario of the specification *)

Lemma dt_ltb_year (a b : datetime) : (year a < year b)%Z -> dt_ltb a b = true.
Proof.
  intros H. unfold dt_ltb, dt_compare, fields. simpl.
  now rewrite (proj2 (Z.compare_lt_iff _ _) H).
Qed.

(** The date part of the scenario holds on the code. *)
Lemma scenario_dates (now : datetime) :
  (year now < 2099)%Z ->
  extract_future_dates now scenario_text = Ok (["15 March 2099"], 1%nat).
Proof.
  intros H. rewrite extract_future_dates_spec.
  replace (parsed_dates scenario_text) with [midnight 2099 3 15]
    by (vm_compute; reflexivity).
  simpl List.filter. rewrite (dt_ltb_year now (midnight 2099 3 15) H).
  vm_compute. reflexivity.
Qed.

Lemma dt_ltb_year_ge (a b : datetime) : (year a < year b)%Z -> dt_ltb b a = false.
Proof.
  intros H. unfold dt_ltb, dt_compare, fields. simpl.
  now rewrite (proj2 (Z.compare_gt_iff _ _) H).
Qed.

(** ** The timeline loop, separated from the clock

    What a sentence contributes does not depend on [now]: only the
    status does. *)

Lemma collect_events_spec (now : datetime) (sentences : list string)
      (acc : list event) :
  collect_events now sentences acc
  = (cs <- candidates sentences ;; Ok (acc ++ List.map (make_event now) cs)).
Proof.
  revert acc. induction sentences as [|s ss IH]; intros acc.
  - cbn [collect_events candidates bind List.map]. now rewrite app_nil_r.
  - cbn [collect_events candidates]. unfold sentence_candidate.
    destruct (re_search re_I timeline_date_pattern s) as [m|]; cbn [bind].
    + destruct (timeline_parse (strip (group0 m))) as [[t|]|e]; cbn [bind].
      * destruct (String.length (clean_event_text s) <? 5)%nat; cbn [bind].
        -- rewrite IH. now destruct (candidates ss).
        -- rewrite IH. destruct (candidates ss); cbn [bind]; [|reflexivity].
           cbn [List.map]. now rewrite <- app_assoc.
      * rewrite IH. now destruct (candidates ss).
      * reflexivity.
    + rewrite IH. now destruct (candidates ss).
Qed.

Lemma timeline_events_spec (now : datetime) (text : string) :
  timeline_events now text
  = (cs <- candidates (re_split no_flags sentence_boundary text) ;;
     Ok (sort_events (List.map (make_event now) cs))).
Proof.
  unfold timeline_events. rewrite collect_events_spec.
  now destruct (candidates (re_split no_flags sentence_boundary text)).
Qed.

(** The timeline part of the scenario holds on the code: one row,
    Upcoming. *)
Lemma scenario_timeline (now : datetime) :
  (year now < 2099)%Z ->
  timeline_events now scenario_text
  = Ok [{| parsed_date := midnight 2099 3 15;
           date_str := "15 March 2099";
           event_text := "The hearing is scheduled for .";
           ev_status := Upcoming |}]
  /\ generate_case_timeline now scenario_text
     = Ok (table_header
           ++ "| 15 March 2099 | The hearing is scheduled for . | "
           ++ status_str Upcoming ++ " |" ++ newline)%string.
Proof.
  intros H.
  assert (E : timeline_events now scenario_text
              = Ok [{| parsed_date := midnight 2099 3 15;
                       date_str := "15 March 2099";
                       event_text := "The hearing is scheduled for .";
                       ev_status := Upcoming |}]).
  { rewrite timeline_events_spec.
    replace (candidates (re_split no_flags sentence_boundary scenario_text))
      with (Ok [(midnight 2099 3 15, "15 March 2099",
                 "The hearing is scheduled for .")])
      by (vm_compute; reflexivity).
    simpl. unfold classify.
    now rewrite (dt_ltb_year_ge now (midnight 2099 3 15) H). }
  split; [exact E|].
  unfold generate_case_timeline. rewrite E. vm_compute. reflexivity.
Qed.

(** C1 (the case-number part fails on the code).  On the scenario text
    [extract_case_numbers] returns the match that starts at the full stop
    ending the previous sentence, [". Case No. 45/2021"]: the optional
    prefix class contains the full stop and the space, and the leftmost
    match starts at the word boundary after "2099".  The specification
    expects [(["Case No. 45/2021"], 1)]. *)
Theorem scenario_case_numbers :
  extract_case_numbers scenario_text = ([". Case No. 45/2021"], 1%nat)
  /\ extract_case_numbers scenario_text <> (["Case No. 45/2021"], 1%nat).
Proof.
  assert (E : extract_case_numbers scenario_text
              = ([". Case No. 45/2021"], 1%nat)) by (vm_compute; reflexivity).
  split; [exact E|]. rewrite E. discriminate.
Qed.

(** ** The stable insertion sort *)

Section SortingFacts.
Variable A : Type.
Variable leb : A -> A -> bool.
Hypothesis leb_total : forall a b, leb a b = false -> leb b a = true.

Lemma insert_by_perm (x : A) (l : list A) :
  Permutation (x :: l) (insert_by leb x l).
Proof.
  induction l as [|y l IH]; simpl; [reflexivity|].
  destruct (leb x y); [reflexivity|].
  etransitivity; [apply perm_swap|]. now constructor.
Qed.

Lemma sort_by_perm (l : list A) : Permutation l (sort_by leb l).
Proof.
  induction l as [|x l IH]; simpl; [constructor|].
  etransitivity; [|apply insert_by_perm]. now constructor.
Qed.

Lemma insert_by_hdrel (a x : A) (l : list A) :
  leb a x = true ->
  HdRel (fun a b => leb a b = true) a l ->
  HdRel (fun a b => leb a b = true) a (insert_by leb x l).
Proof.
  intros Hax Hl. destruct l as [|y l]; simpl; [now constructor|].
  destruct (leb x y); constructor; [exact Hax|].
  now inversion Hl.
Qed.

Lemma insert_by_sorted (x : A) (l : list A) :
  Sorted (fun a b => leb a b = true) l ->
  Sorted (fun a b => leb a b = true) (insert_by leb x l).
Proof.
  induction 1 as [|y l Hs IH Hy]; simpl.
  - repeat constructor.
  - destruct (leb x y) eqn:E.
    + constructor; [now constructor|]. now constructor.
    + constructor; [exact IH|].
      apply insert_by_hdrel; [|exact Hy]. now apply leb_total.
Qed.

Lemma sort_by_sorted (l : list A) :
  Sorted (fun a b => leb a b = true) (sort_by leb l).
Proof.
  induction l as [|x l IH]; simpl; [constructor|].
  now apply insert_by_sorted.
Qed.

(** Stability: a class [p] of elements that [x] is never placed
    after keeps its order. *)
Variable p : A -> bool.
Hypothesis p_class : forall x y, p x = true -> p y = true -> leb x y = true.

Lemma insert_by_filter (x : A) (l : list A) :
  filter p (insert_by leb x l) = filter p (x :: l).
Proof.
  induction l as [|y l IH]; [reflexivity|].
  simpl insert_by. destruct (leb x y) eqn:E; [reflexivity|].
  simpl in *. rewrite IH.
  destruct (p x) eqn:Px, (p y) eqn:Py; try reflexivity.
  rewrite (p_class _ _ Px Py) in E. discriminate.
Qed.

Lemma sort_by_filter (l : list A) :
  filter p (sort_by leb l) = filter p l.
Proof.
  induction l as [|x l IH]; [reflexivity|].
  simpl sort_by. rewrite insert_by_filter. simpl. now rewrite IH.
Qed.
End SortingFacts.

(** ** Order on [datetime] *)

Lemma lex_compare_refl (a : list Z) : lex_compare a a = Eq.
Proof. induction a as [|x a IH]; simpl; [reflexivity|]. now rewrite Z.compare_refl. Qed.

Lemma lex_compare_eq (a b : list Z) : lex_compare a b = Eq -> a = b.
Proof.
  revert b. induction a as [|x a IH]; intros [|y b]; simpl; try discriminate;
    [reflexivity|].
  destruct (x ?= y)%Z eqn:E; try discriminate.
  apply Z.compare_eq in E. intros H. f_equal; [exact E|now apply IH].
Qed.

Lemma lex_compare_antisym (a b : list Z) :
  lex_compare b a = CompOpp (lex_compare a b).
Proof.
  revert b. induction a as [|x a IH]; intros [|y b]; simpl; try reflexivity.
  rewrite (Z.compare_antisym x y). destruct (x ?= y)%Z; simpl; auto.
Qed.

Lemma dt_leb_total (a b : datetime) : dt_leb a b = false -> dt_leb b a = true.
Proof.
  unfold dt_leb, dt_compare. rewrite (lex_compare_antisym (fields a) (fields b)).
  destruct (lex_compare (fields a) (fields b)); simpl; congruence.
Qed.

Lemma dt_ltb_leb (a b : datetime) : dt_ltb a b = negb (dt_leb b a).
Proof.
  unfold dt_ltb, dt_leb, dt_compare.
  rewrite (lex_compare_antisym (fields a) (fields b)).
  now destruct (lex_compare (fields a) (fields b)).
Qed.

Lemma dt_eqb_eq (a b : datetime) : dt_eqb a b = true <-> a = b.
Proof.
  unfold dt_eqb, dt_compare. split.
  - destruct (lex_compare (fields a) (fields b)) eqn:E; try discriminate.
    intros _. apply lex_compare_eq in E. destruct a, b. unfold fields in E.
    simpl in E. now inversion E.
  - intros ->. now rewrite lex_compare_refl.
Qed.

Lemma sort_events_stable (d : datetime) (l : list event) :
  filter (on_date d) (sort_events l) = filter (on_date d) l.
Proof.
  unfold sort_events. apply sort_by_filter.
  intros x y Hx Hy. apply dt_eqb_eq in Hx, Hy. rewrite Hx, Hy.
  unfold dt_leb, dt_compare. now rewrite lex_compare_refl.
Qed.

(** ** The timeline: order and status *)

Lemma make_event_status (now : datetime) (c : candidate) :
  ev_status (make_event now c)
  = if dt_ltb (parsed_date (make_event now c)) now then Completed else Upcoming.
Proof. destruct c as [[t ds] txt]. reflexivity. Qed.

Lemma make_event_matches (now : datetime) (c : candidate) :
  status_matches now (make_event now c).
Proof.
  unfold status_matches. rewrite make_event_status.
  destruct (dt_ltb (parsed_date (make_event now c)) now);
    split; split; congruence.
Qed.

(** C6.  Whenever [generate_case_timeline] produces rows, they are the
    events collected from the sentences, rearranged by a stable sort on
    the parsed date: the rows are in non-decreasing date order, events of
    one date keep their text order, and each status is Completed exactly
    when the parsed date is strictly before [now], Upcoming otherwise. *)
Theorem timeline_sorted_stable_classified
        (now : datetime) (text : string) (events : list event) :
  timeline_events now text = Ok events ->
  exists collected,
    collect_events now (re_split no_flags sentence_boundary text) [] = Ok collected
    /\ Permutation collected events
    /\ Sorted (fun a b => dt_leb (parsed_date a) (parsed_date b) = true) events
    /\ (forall d, filter (on_date d) events = filter (on_date d) collected)
    /\ Forall (status_matches now) events
    /\ generate_case_timeline now text
       = Ok (match events with
             | [] => "No timeline events detected."
             | _ => render_table events
             end).
Proof.
  intros H.
  assert (G : generate_case_timeline now text
              = Ok (match events with
                    | [] => "No timeline events detected."
                    | _ => render_table events
                    end)).
  { unfold generate_case_timeline. rewrite H. simpl. now destruct events. }
  rewrite timeline_events_spec in H. rewrite collect_events_spec.
  destruct (candidates (re_split no_flags sentence_boundary text)) as [cs|e];
    simpl in *; [|discriminate].
  injection H as <-.
  exists (List.map (make_event now) cs). split; [reflexivity|].
  assert (P : Permutation (List.map (make_event now) cs)
                          (sort_events (List.map (make_event now) cs)))
    by apply sort_by_perm.
  split; [exact P|]. split.
  { unfold sort_events.
    apply (sort_by_sorted event
             (fun a b => dt_leb (parsed_date a) (parsed_date b))).
    intros a b. apply dt_leb_total. }
  split; [intros d; apply sort_events_stable|].
  split; [|exact G].
  apply (Permutation_Forall P). apply Forall_forall.
  intros e He. apply in_map_iff in He. destruct He as [c [<- _]].
  apply make_event_matches.
Qed.

Lemma timeline_sorted_stable_classified_witness :
  timeline_events timeline_sample_now timeline_sample_text
  = Ok timeline_sample_events
  /\ exists collected,
    collect_events timeline_sample_now
      (re_split no_flags sentence_boundary timeline_sample_text) [] = Ok collected
    /\ Permutation collected timeline_sample_events
    /\ Sorted (fun a b => dt_leb (parsed_date a) (parsed_date b) = true)
              timeline_sample_events
    /\ (forall d, filter (on_date d) timeline_sample_events
                  = filter (on_date d) collected)
    /\ Forall (status_matches timeline_sample_now) timeline_sample_events
    /\ generate_case_timeline timeline_sample_now timeline_sample_text
       = Ok (render_table timeline_sample_events).
Proof.
  split; [vm_compute; reflexivity|].
  apply (timeline_sorted_stable_classified
           timeline_sample_now timeline_sample_text timeline_sample_events).
  vm_compute; reflexivity.
Defined.

(** ** The date extractor: future, distinct, and the order of the output *)

Lemma str_ltb_asym (a b : string) : str_ltb a b = true -> str_ltb b a = false.
Proof.
  revert b. induction a as [|x a IH]; intros [|y b]; simpl; try congruence.
  destruct (code x <? code y)%N eqn:E1, (code y <? code x)%N eqn:E2;
    try congruence; [|apply IH].
  apply N.ltb_lt in E1, E2. lia.
Qed.

Lemma str_leb_total (a b : string) : str_leb a b = false -> str_leb b a = true.
Proof.
  unfold str_leb. intros H. apply negb_false_iff in H.
  now rewrite (str_ltb_asym _ _ H).
Qed.

(** What does hold of the output for every text and every clock: it is
    returned (never raised), every element is the normal form of a date
    parsed from the text that is strictly after [now], no element
    repeats, and the elements are in the lexicographic order of the
    strings. *)
Lemma extract_future_dates_output (now : datetime) (text : string) :
  exists dates,
    extract_future_dates now text = Ok (dates, List.length dates)
    /\ NoDup dates
    /\ Sorted (fun a b => str_leb a b = true) dates
    /\ forall s, In s dates <->
                 exists t, In t (parsed_dates text)
                           /\ dt_ltb now t = true /\ s = strftime_dBY t.
Proof.
  rewrite extract_future_dates_spec. cbv zeta.
  set (found := List.map strftime_dBY (List.filter (dt_ltb now) (parsed_dates text))).
  exists (sorted (list_set found)). split; [reflexivity|].
  assert (P : Permutation (list_set found) (sorted (list_set found)))
    by apply sort_by_perm.
  split; [|split].
  - apply (Permutation_NoDup P). apply NoDup_nodup.
  - apply (sort_by_sorted string str_leb str_leb_total).
  - intros s. split.
    + intros H. apply (Permutation_in _ (Permutation_sym P)) in H.
      apply nodup_In in H. apply in_map_iff in H.
      destruct H as [t [<- Ht]]. apply filter_In in Ht. now exists t.
    + intros [t [Ht [Hn ->]]]. apply (Permutation_in _ P).
      apply nodup_In. apply in_map. apply filter_In. now split.
Qed.

(** C2 (the order fails on the code).  The output is sorted after the
    dates have been formatted, so its order is that of the strings: for
    a text naming 15 March 2099 and 01 January 2100 the later date comes
    first.  The timeline sorts on the parsed dates instead. *)
Theorem future_dates_sorted_as_strings :
  extract_future_dates early_2025
    "Hearings are listed for 15 March 2099 and 01 January 2100."
  = Ok (["01 January 2100"; "15 March 2099"], 2%nat)
  /\ strptime "01 January 2100" "%d %B %Y" = Ok (midnight 2100 1 1)
  /\ strptime "15 March 2099" "%d %B %Y" = Ok (midnight 2099 3 15)
  /\ dt_leb (midnight 2100 1 1) (midnight 2099 3 15) = false.
Proof. repeat split; vm_compute; reflexivity. Qed.

(** C3 (fails on the code).  "October 21, 2025" is matched by the
    pattern, but the commas are removed from the matched text before it
    is parsed while the format "%B %d, %Y" still requires one, so no
    format parses it and the date is dropped.  The timeline parses the
    same shape with "%B %d %Y". *)
Theorem month_day_year_dropped :
  List.map group0 (re_finditer re_I date_pattern "Next hearing on October 21, 2025.")
  = ["October 21, 2025"]
  /\ parse_date_str "October 21, 2025" = Ok None
  /\ extract_future_dates early_2025 "Next hearing on October 21, 2025."
     = Ok ([], 0%nat)
  /\ timeline_parse "October 21, 2025" = Ok (Some (midnight 2025 10 21)).
Proof. repeat split; vm_compute; reflexivity. Qed.

(** ** Month-year dates in the timeline *)

(** C5 (fails on the code).  The format list of the timeline contains
    "%B %Y", so "March 2026" parses there, to the first of the month,
    and the fallback that builds "15 March 2026" is never reached for
    it.  On 10 March 2026 the event is therefore Completed, where the
    15th would be Upcoming.  The fallback is only reached by a match
    such as "March 202620", which no format parses. *)
Theorem month_year_timeline_first_of_month :
  timeline_parse "March 2026" = Ok (Some (midnight 2026 3 1))
  /\ timeline_events mid_march_2026 "The next hearing is in March 2026."
     = Ok [{| parsed_date := midnight 2026 3 1; date_str := "March 2026";
              event_text := "The next hearing is in .";
              ev_status := Completed |}]
  /\ classify mid_march_2026 (midnight 2026 3 15) = Upcoming
  /\ timeline_parse "March 202620" = Ok (Some (midnight 2026 3 15)).
Proof. repeat split; vm_compute; reflexivity. Qed.

(** ** Exceptions of the three extractors *)

(** [extract_future_dates] returns for every text and every clock. *)
Lemma extract_future_dates_returns (now : datetime) (text : string) :
  exists dates n, extract_future_dates now text = Ok (dates, n).
Proof.
  destruct (extract_future_dates_output now text) as [dates [H _]]. eauto.
Qed.

(** The timeline raises exactly when the month-year fallback of some
    sentence does: that [strptime] is the only call outside a [try]. *)
Lemma timeline_parse_raises (ds : string) (e : exn) :
  timeline_parse ds = Raise e ->
  try_formats_any (replace "," "" ds) timeline_formats = None
  /\ exists m, re_match re_I month_year_pattern ds = Some m
               /\ strptime ("15 " ++ group_or_empty "1" m ++ " "
                                  ++ group_or_empty "2" m) "%d %B %Y"
                  = Raise e.
Proof.
  unfold timeline_parse.
  destruct (try_formats_any (replace "," "" ds) timeline_formats);
    [discriminate|].
  destruct (re_match re_I month_year_pattern ds) as [m|]; [|discriminate].
  intros H. split; [reflexivity|]. exists m. split; [reflexivity|].
  unfold bind in H.
  destruct (strptime ("15 " ++ group_or_empty "1" m ++ " "
                            ++ group_or_empty "2" m) "%d %B %Y");
    [discriminate|congruence].
Qed.

(** C7 (fails on the code for the timeline).  A sentence naming a month
    of the year 0000 matches the date pattern, no format parses it (year
    0 is out of range, a [ValueError] the loop catches), and the
    month-year fallback then calls [strptime] on "15 March 0000" outside
    any [try]: [generate_case_timeline] raises [ValueError].  The two
    other extractors return on the same text. *)
Theorem timeline_raises_on_year_zero :
  generate_case_timeline early_2025 "The hearing in March 0000 was adjourned."
  = Raise (ValueError "year 0 is out of range")
  /\ extract_future_dates early_2025 "The hearing in March 0000 was adjourned."
     = Ok ([], 0%nat)
  /\ extract_case_numbers "The hearing in March 0000 was adjourned." = ([], 0%nat).
Proof. repeat split; vm_compute; reflexivity. Qed.

(** ** Isolating the JSON object in the service's answer *)

Lemma append_nil_r (s : string) : (s ++ "")%string = s.
Proof. induction s as [|c s IH]; simpl; [reflexivity|now rewrite IH]. Qed.

Lemma append_assoc (a b c : string) :
  ((a ++ b) ++ c)%string = (a ++ (b ++ c))%string.
Proof. induction a as [|x a IH]; simpl; [reflexivity|now rewrite IH]. Qed.

Lemma length_append (a b : string) :
  String.length (a ++ b) = (String.length a + String.length b)%nat.
Proof. induction a as [|x a IH]; simpl; [reflexivity|now rewrite IH]. Qed.

Lemma firstn_append (a b : string) : firstn (String.length a) (a ++ b) = a.
Proof. induction a as [|x a IH]; simpl; [now destruct b|now rewrite IH]. Qed.

Lemma step_In (p : ascii -> bool) (c c' : cursor) :
  In c' (step p c) ->
  exists x s, rest c = String x s /\ p x = true /\ c' = advance x s c.
Proof.
  unfold step. destruct (rest c) as [|x s]; [intros []|].
  destruct (p x) eqn:E; [|intros []].
  intros [<-|[]]. now exists x, s.
Qed.

(** Every position [upto] reaches lies further in the same subject. *)
Lemma upto_dot_suffix (n : nat) (c c' : cursor) :
  In c' (upto (run re_S Dot) n c) ->
  exists a, rest c = (a ++ rest c')%string.
Proof.
  revert c. induction n as [|n IH]; intros c; simpl.
  - intros [<-|[]]. now exists EmptyString.
  - intros H. apply in_app_or in H. destruct H as [H|[<-|[]]].
    + apply in_flat_map in H. destruct H as [c1 [H1 H2]].
      apply step_In in H1. destruct H1 as [x [s [E [_ ->]]]].
      destruct (IH _ H2) as [a Ha]. simpl in Ha.
      exists (String x a). rewrite E. simpl. now rewrite Ha.
    + now exists EmptyString.
Qed.

(** A match of [json_span] is an opening brace, some text and a closing
    brace. *)
Lemma json_span_shape (c c' : cursor) :
  In c' (run re_S json_span c) ->
  exists mid, rest c = ("{" ++ mid ++ "}" ++ rest c')%string.
Proof.
  change (run re_S json_span c)
    with (flat_map
            (fun c1 =>
               flat_map (step (chr_test re_S "}"))
                        (flat_map (fun c2 => upto (run re_S Dot)
                                                  (String.length (rest c2)) c2)
                                  [c1]))
            (step (chr_test re_S "{") c)).
  intros H. apply in_flat_map in H. destruct H as [c1 [H1 H2]].
  apply step_In in H1. destruct H1 as [x [s [E [Hx ->]]]].
  change (chr_test re_S "{" x) with (Ascii.eqb "{" x) in Hx.
  apply Ascii.eqb_eq in Hx. subst x.
  apply in_flat_map in H2. destruct H2 as [c2 [H2 H3]].
  simpl flat_map in H2. rewrite app_nil_r in H2.
  apply upto_dot_suffix in H2. destruct H2 as [mid Hmid]. simpl in Hmid.
  apply step_In in H3. destruct H3 as [y [t [E2 [Hy ->]]]].
  change (chr_test re_S "}" y) with (Ascii.eqb "}" y) in Hy.
  apply Ascii.eqb_eq in Hy. subst y.
  exists mid. rewrite E, Hmid, E2. reflexivity.
Qed.

Lemma match_at_In (f : flags) (r : regex) (c : cursor) (m : rmatch) :
  match_at f r c = Some m ->
  m_start m = c /\ In (m_end m) (run f r (clear_caps c)).
Proof.
  unfold match_at. destruct (run f r (clear_caps c)) as [|c' l]; [discriminate|].
  intros [= <-]. simpl. auto.
Qed.

Lemma search_from_start (f : flags) (r : regex) (fuel : nat) (c : cursor)
      (m : rmatch) :
  search_from f r fuel c = Some m ->
  exists pre, rest c = (pre ++ rest (m_start m))%string
              /\ match_at f r (m_start m) = Some m.
Proof.
  revert c. induction fuel as [|fuel IH]; intros c; simpl.
  - destruct (match_at f r c) as [m'|] eqn:E.
    + intros [= <-]. exists EmptyString.
      destruct (match_at_In _ _ _ _ E) as [-> _]. auto.
    + destruct (rest c); discriminate.
  - destruct (match_at f r c) as [m'|] eqn:E.
    + intros [= <-]. exists EmptyString.
      destruct (match_at_In _ _ _ _ E) as [-> _]. auto.
    + destruct (rest c) as [|x s] eqn:Ec; [discriminate|].
      intros H. destruct (IH _ H) as [pre [Hp Hm]]. simpl in Hp.
      exists (String x pre). simpl. now rewrite Hp.
Qed.

Lemma json_span_found (s : string) (m : rmatch) :
  re_search re_S json_span s = Some m -> has_brace_span s.
Proof.
  unfold re_search. intros H.
  destruct (search_from_start _ _ _ _ _ H) as [pre [Hp Hm]]. simpl in Hp.
  destruct (match_at_In _ _ _ _ Hm) as [_ Hin].
  destruct (json_span_shape _ _ Hin) as [mid Hmid]. simpl in Hmid.
  exists pre, mid, (rest (m_end m)). now rewrite Hp, Hmid.
Qed.

Lemma step_cons (p : ascii -> bool) (b s : string) (x : ascii)
      (k : list (string * string)) :
  step p {| before := b; rest := String x s; caps := k |}
  = if p x
    then [{| before := String x b; rest := s; caps := k |}]
    else [].
Proof. reflexivity. Qed.

Lemma upto_dot_positions (s b : string) (k : list (string * string)) :
  upto (run re_S Dot) (String.length s) {| before := b; rest := s; caps := k |}
  = positions b s k.
Proof.
  revert b. induction s as [|x s IH]; intros b; [reflexivity|].
  simpl String.length. simpl upto. unfold advance. cbn [before caps].
  rewrite app_nil_r. now rewrite IH.
Qed.

Lemma no_brace_no_close (v b : string) (k : list (string * string)) :
  has_char "}" v = false ->
  flat_map (step (chr_test re_S "}")) (positions b v k) = [].
Proof.
  revert b. induction v as [|x v IH]; intros b H; [reflexivity|].
  simpl in H. apply orb_false_iff in H. destruct H as [Hx Hv].
  simpl positions. rewrite flat_map_app, (IH _ Hv). simpl flat_map.
  rewrite step_cons.
  change (chr_test re_S "}" x) with (Ascii.eqb "}" x). now rewrite Hx.
Qed.

Lemma last_brace_first (u v b : string) (k : list (string * string)) :
  has_char "}" v = false ->
  exists c' l,
    flat_map (step (chr_test re_S "}")) (positions b (u ++ String "}" v) k)
    = c' :: l
    /\ rest c' = v.
Proof.
  intros Hv. revert b. induction u as [|x u IH]; intros b.
  - simpl append. simpl positions.
    rewrite flat_map_app, (no_brace_no_close v _ k Hv). simpl flat_map.
    eexists. eexists. split; [reflexivity|reflexivity].
  - simpl append. simpl positions. rewrite flat_map_app.
    destruct (IH (String x b)) as [c' [l [E R]]]. rewrite E.
    eexists. eexists. split; [reflexivity|exact R].
Qed.

(** At an opening brace the match runs to the last closing brace. *)
Lemma json_span_at_brace (b mid post : string) (k : list (string * string)) :
  has_char "}" post = false ->
  exists m,
    match_at re_S json_span
             {| before := b; rest := "{" ++ mid ++ "}" ++ post; caps := k |}
    = Some m
    /\ group0 m = ("{" ++ mid ++ "}")%string.
Proof.
  intros Hp. unfold match_at.
  change (run re_S json_span
              (clear_caps {| before := b; rest := "{" ++ mid ++ "}" ++ post;
                             caps := k |}))
    with (flat_map (step (chr_test re_S "}"))
            (upto (run re_S Dot) (String.length (mid ++ "}" ++ post))
                  {| before := String "{" b; rest := mid ++ "}" ++ post;
                     caps := [] |} ++ []) ++ []).
  rewrite !app_nil_r, upto_dot_positions.
  destruct (last_brace_first mid post (String "{" b) [] Hp) as [c' [l [E R]]].
  change (mid ++ "}" ++ post)%string with (mid ++ String "}" post)%string.
  rewrite E. eexists. split; [reflexivity|].
  unfold group0, between. simpl m_start. simpl m_end. simpl rest. rewrite R.
  assert (A : String "{" (mid ++ String "}" post)
              = (("{" ++ mid ++ "}") ++ post)%string)
    by (simpl; now rewrite append_assoc).
  rewrite A, length_append, Nat.add_sub. apply firstn_append.
Qed.

Lemma json_span_needs_brace (x : ascii) (b t : string)
      (k : list (string * string)) :
  Ascii.eqb "{" x = false ->
  run re_S json_span {| before := b; rest := String x t; caps := k |} = [].
Proof.
  intros Hx.
  change (run re_S json_span {| before := b; rest := String x t; caps := k |})
    with (flat_map
            (fun c1 =>
               flat_map (step (chr_test re_S "}"))
                 (flat_map (fun c2 => upto (run re_S Dot)
                                           (String.length (rest c2)) c2)
                           [c1]))
            (if Ascii.eqb "{" x
             then [{| before := String x b; rest := t; caps := k |}]
             else [])).
  now rewrite Hx.
Qed.

(** Before the first opening brace no match starts. *)
Lemma search_from_skip (pre s b : string) (k : list (string * string))
      (fuel : nat) :
  has_char "{" pre = false ->
  (String.length pre <= fuel)%nat ->
  exists b' k',
    search_from re_S json_span fuel
                {| before := b; rest := pre ++ String "{" s; caps := k |}
    = search_from re_S json_span (fuel - String.length pre)
                  {| before := b'; rest := String "{" s; caps := k' |}.
Proof.
  revert b k fuel. induction pre as [|x pre IH]; intros b k fuel Hpre Hf.
  - exists b, k. simpl. now rewrite Nat.sub_0_r.
  - simpl in Hpre. apply orb_false_iff in Hpre. destruct Hpre as [Hx Hpre].
    simpl in Hf. destruct fuel as [|fuel]; [lia|].
    destruct (IH (String x b) k fuel Hpre) as [b' [k' E]]; [lia|].
    exists b', k'. simpl String.length. rewrite Nat.sub_succ, <- E.
    simpl append. simpl search_from. unfold match_at, clear_caps.
    cbn [before rest]. now rewrite (json_span_needs_brace x b _ [] Hx).
Qed.

(** The span the handler isolates: from the first opening brace through
    the last closing one. *)
Lemma json_span_isolated (pre mid post : string) :
  has_char "{" pre = false ->
  has_char "}" post = false ->
  exists m,
    re_search re_S json_span (pre ++ "{" ++ mid ++ "}" ++ post) = Some m
    /\ group0 m = ("{" ++ mid ++ "}")%string.
Proof.
  intros Hpre Hpost. unfold re_search, start_of.
  destruct (search_from_skip pre (mid ++ "}" ++ post) EmptyString []
              (String.length (pre ++ "{" ++ mid ++ "}" ++ post)) Hpre)
    as [b' [k' E]].
  { rewrite length_append. lia. }
  destruct (json_span_at_brace b' mid post k' Hpost) as [m [Hm G]].
  exists m. split; [|exact G].
  simpl append in E, Hm |- *. rewrite E.
  destruct (String.length (pre ++ String "{" (mid ++ String "}" post))
            - String.length pre)%nat;
    simpl search_from; now rewrite Hm.
Qed.

(** C8.  When the answer of the service has no brace-delimited span,
    [extract_structured_summary] returns the marker
    [{"error": "No structured JSON found"}] and raises nothing.  When
    the answer is prose around a span that starts at its first opening
    brace and ends at its last closing brace, that span alone is given
    to [json.loads]; for the answer of the scenario the result is the
    object [{"Case_Name": "X"}]. *)
Theorem structured_summary_isolates_json
        (sv : services) (text response : string) :
  generate_content sv (structured_prompt text) = Ok response ->
  (~ has_brace_span response ->
   extract_structured_summary sv text = Ok no_json_found)
  /\ (forall pre mid post,
         response = (pre ++ "{" ++ mid ++ "}" ++ post)%string ->
         has_char "{" pre = false ->
         has_char "}" post = false ->
         extract_structured_summary sv text
         = reraise_500 "Gemini extraction failed: "
                       (json_loads ("{" ++ mid ++ "}")))
  /\ (response = prose_response ->
      extract_structured_summary sv text
      = Ok (JObject [("Case_Name", JString "X")])).
Proof.
  intros G. unfold extract_structured_summary. rewrite G. simpl bind.
  split; [|split].
  - intros Hno.
    destruct (re_search re_S json_span response) as [m|] eqn:E; [|reflexivity].
    exfalso. apply Hno. exact (json_span_found _ _ E).
  - intros pre mid post -> Hpre Hpost.
    destruct (json_span_isolated pre mid post Hpre Hpost) as [m [-> ->]].
    reflexivity.
  - intros ->. vm_compute. reflexivity.
Qed.

Lemma structured_summary_isolates_json_witness :
  generate_content (answering (Ok prose_response)) (structured_prompt "Order of the court.")
  = Ok prose_response
  /\ (~ has_brace_span prose_response ->
      extract_structured_summary (answering (Ok prose_response)) "Order of the court."
      = Ok no_json_found)
  /\ (forall pre mid post,
         prose_response = (pre ++ "{" ++ mid ++ "}" ++ post)%string ->
         has_char "{" pre = false ->
         has_char "}" post = false ->
         extract_structured_summary (answering (Ok prose_response)) "Order of the court."
         = reraise_500 "Gemini extraction failed: "
                       (json_loads ("{" ++ mid ++ "}")))
  /\ (prose_response = prose_response ->
      extract_structured_summary (answering (Ok prose_response)) "Order of the court."
      = Ok (JObject [("Case_Name", JString "X")])).
Proof.
  split; [reflexivity|].
  apply (structured_summary_isolates_json
           (answering (Ok prose_response)) "Order of the court." prose_response).
  reflexivity.
Defined.

(** A plain-prose answer has no span, and the marker is returned. *)
Lemma no_brace_no_span (s : string) :
  has_char "{" s = false -> ~ has_brace_span s.
Proof.
  intros H [pre [mid [post ->]]]. revert H.
  induction pre as [|x pre IH]; simpl.
  - discriminate.
  - intros H. apply orb_false_iff in H. tauto.
Qed.

(** ** Failures inside a batch *)

Lemma process_file_stage_fails
      (sv : services) (user_id client_name file_type : string)
      (file : upload_file) (s : stage) (e : exn) (w : world) :
  stage_fails sv (file_content file) s e ->
  process_file sv user_id client_name file_type file w
  = (w, Raise (HTTPException 500 (stage_label s ++ exn_str e))).
Proof.
  unfold process_file, and_then, lift. destruct s; simpl stage_fails.
  - intros H. unfold extract_text_from_pdf. rewrite H. reflexivity.
  - intros [text [Ht [Hn Hs]]]. rewrite Ht, Hn. simpl negb. cbv iota.
    unfold summarize_with_gemini. rewrite Hs. reflexivity.
  - intros [text [summary [Ht [Hn [Hs Hx]]]]]. rewrite Ht, Hn. simpl negb.
    cbv iota. unfold summarize_with_gemini. rewrite Hs. simpl reraise_500.
    cbv iota.
    change (extract_structured_summary sv text)
      with (reraise_500 "Gemini extraction failed: " (structured_attempt sv text)).
    rewrite Hx. reflexivity.
Qed.

Lemma process_files_app
      (sv : services) (user_id client_name file_type : string)
      (done rest : list upload_file) (summaries : list document_result)
      (w : world) :
  process_files sv user_id client_name file_type (done ++ rest) summaries w
  = match process_files sv user_id client_name file_type done summaries w with
    | (w1, Ok s1) => process_files sv user_id client_name file_type rest s1 w1
    | (w1, Raise e) => (w1, Raise e)
    end.
Proof.
  revert summaries w. induction done as [|f done IH]; intros summaries w.
  - reflexivity.
  - simpl. unfold and_then.
    destruct (process_file sv user_id client_name file_type f w) as [w' [r|e]];
      [apply IH|reflexivity].
Qed.

(** C9, as the code has it.  A failure of the PDF reader or of the
    service on one document ends the whole request: the caller gets the
    HTTP 500 error of the failing stage, whose detail is the label of
    the stage followed by the cause, and none of the documents'
    results, also not those of the documents already processed (which
    have been stored).  The error does not depend on the name of the
    file. *)
Theorem stage_failure_aborts_batch
        (sv : services) (client_name file_type authorization user_id : string)
        (done later : list upload_file) (bad : upload_file)
        (s : stage) (e : exn) (w w1 : world) (results : list document_result) :
  prefix "Bearer " authorization = true ->
  verify_firebase_token sv (nth 1 (str_split "Bearer " authorization) EmptyString)
  = Some user_id ->
  process_files sv user_id client_name file_type done [] w = (w1, Ok results) ->
  stage_fails sv (file_content bad) s e ->
  upload_and_summarize sv (done ++ bad :: later) client_name file_type
                       (Some authorization) w
  = (w1, Raise (HTTPException 500 (stage_label s ++ exn_str e))).
Proof.
  intros Hb Hv Hd Hs. unfold upload_and_summarize. rewrite Hb.
  assert (Hn : nonempty authorization = true)
    by (destruct authorization; [discriminate|reflexivity]).
  rewrite Hn, Hv. simpl. rewrite process_files_app, Hd. simpl.
  unfold and_then.
  now rewrite (process_file_stage_fails sv user_id client_name file_type
                 bad s e w1 Hs).
Qed.

Lemma stage_failure_aborts_batch_witness :
  upload_and_summarize failing_on_appeal two_uploads "client" "Court Order"
                       (Some "Bearer token") empty_world
  = (fst (process_files failing_on_appeal "token" "client" "Court Order"
                        [nth 0 two_uploads {| filename := ""; file_content := "" |}]
                        [] empty_world),
     Raise (HTTPException 500 "Gemini summarization failed: quota exceeded")).
Proof.
  apply (stage_failure_aborts_batch
           failing_on_appeal "client" "Court Order" "Bearer token" "token"
           [{| filename := "order.pdf";
               file_content := "The order was passed on 3 January 2020." |}]
           []
           {| filename := "notice.pdf";
              file_content := "The appeal is listed on 15 March 2099." |}
           Summarization (OtherError "quota exceeded") empty_world
           (fst (process_files failing_on_appeal "token" "client" "Court Order"
                   [nth 0 two_uploads {| filename := ""; file_content := "" |}]
                   [] empty_world))
           (match snd (process_files failing_on_appeal "token" "client"
                         "Court Order"
                         [nth 0 two_uploads {| filename := ""; file_content := "" |}]
                         [] empty_world) with
            | Ok r => r
            | Raise _ => []
            end)).
  - reflexivity.
  - reflexivity.
  - vm_compute. reflexivity.
  - exists "The appeal is listed on 15 March 2099.".
    repeat split; vm_compute; reflexivity.
Defined.

(** C9 as stated fails: of two documents, the second one fails at
    summarization; the caller gets neither the result of the first
    document, which on its own is processed, nor an error that names
    the failing file. *)
Lemma batch_failure_not_attributed :
  snd (upload_and_summarize failing_on_appeal two_uploads "client" "Court Order"
                            (Some "Bearer token") empty_world)
  = Raise (HTTPException 500 "Gemini summarization failed: quota exceeded")
  /\ contains "notice.pdf" "Gemini summarization failed: quota exceeded" = false
  /\ (exists doc,
         snd (upload_and_summarize failing_on_appeal
                [nth 0 two_uploads {| filename := ""; file_content := "" |}]
                "client" "Court Order" (Some "Bearer token") empty_world)
         = Ok [doc]
         /\ r_filename doc = "order.pdf").
Proof.
  split; [vm_compute; reflexivity|]. split; [vm_compute; reflexivity|].
  eexists. split; [vm_compute; reflexivity|reflexivity].
Qed.

(** ** Ordinal suffixes in upper case *)









(** ** Month-year dates in the date extractor *)

Lemma times_caps (body : cursor -> list cursor) :
  (forall c c', In c' (body c) -> caps c' = caps c) ->
  forall n c c', In c' (times body n c) -> caps c' = caps c.
Proof.
  intros Hb. induction n as [|n IH]; intros c c'; simpl.
  - intros [<-|[]]. reflexivity.
  - intros H. apply in_flat_map in H. destruct H as [c1 [H1 H2]].
    rewrite (IH _ _ H2). now apply Hb.
Qed.

Lemma upto_caps (body : cursor -> list cursor) :
  (forall c c', In c' (body c) -> caps c' = caps c) ->
  forall n c c', In c' (upto body n c) -> caps c' = caps c.
Proof.
  intros Hb. induction n as [|n IH]; intros c c'; simpl.
  - intros [<-|[]]. reflexivity.
  - intros H. apply in_app_or in H. destruct H as [H|[<-|[]]]; [|reflexivity].
    apply in_flat_map in H. destruct H as [c1 [H1 H2]].
    rewrite (IH _ _ H2). now apply Hb.
Qed.

(** Only a group records a capture. *)
Lemma run_nogroup_caps (f : flags) (r : regex) :
  nogroup r = true ->
  forall c c', In c' (run f r c) -> caps c' = caps c.
Proof.
  induction r as [|a|items| |r1 IH1 r2 IH2|r1 IH1 r2 IH2|lo hi r IH| |items|name r IH];
    intros Hn c c'; cbn [run]; cbn [nogroup] in Hn.
  - intros [<-|[]]. reflexivity.
  - intros H. apply step_In in H. now destruct H as [x [s [_ [_ ->]]]].
  - intros H. apply step_In in H. now destruct H as [x [s [_ [_ ->]]]].
  - intros H. apply step_In in H. now destruct H as [x [s [_ [_ ->]]]].
  - apply andb_true_iff in Hn. destruct Hn as [H1 H2].
    intros H. apply in_flat_map in H. destruct H as [c1 [Hc1 Hc']].
    rewrite (IH2 H2 _ _ Hc'). now apply IH1.
  - apply andb_true_iff in Hn. destruct Hn as [H1 H2].
    intros H. apply in_app_or in H. destruct H; [now apply IH1|now apply IH2].
  - intros H. apply in_flat_map in H. destruct H as [c1 [Hc1 Hc']].
    rewrite (upto_caps _ (IH Hn) _ _ _ Hc').
    exact (times_caps _ (IH Hn) _ _ _ Hc1).
  - destruct (xorb (word_before c) (word_after c)); [|intros []].
    intros [<-|[]]. reflexivity.
  - destruct (before c) as [|x b]; [intros []|].
    destruct (cls_test f items x); [|intros []].
    intros [<-|[]]. reflexivity.
  - discriminate.
Qed.

Lemma run_group_caps (f : flags) (name : string) (r : regex) :
  nogroup r = true ->
  forall c c', In c' (run f (Group name r) c) ->
               exists v, caps c' = (name, v) :: caps c.
Proof.
  intros Hn c c' H. cbn [run] in H. apply in_map_iff in H.
  destruct H as [c0 [<- H0]]. unfold set_cap. cbn [caps].
  rewrite (run_nogroup_caps f r Hn _ _ H0). eauto.
Qed.

(** The format "%B %Y" has no day directive: a date it parses is the
    first of its month. *)
Lemma strptime_month_year_day (s : string) (t : datetime) :
  strptime s "%B %Y" = Ok t -> day t = 1%Z.
Proof.
  unfold strptime.
  destruct (pattern "%B %Y") as [re|] eqn:P; [|discriminate].
  vm_compute in P. injection P as <-.
  match goal with
  | |- context [re_match re_I (Seq (Group "B" ?rb)
                                   (Seq ?ws (Seq (Group "Y" ?ry) Eps))) s] =>
      set (Rb := rb); set (Ws := ws); set (Ry := ry)
  end.
  destruct (re_match re_I (Seq (Group "B" Rb) (Seq Ws (Seq (Group "Y" Ry) Eps))) s)
    as [found|] eqn:M; [|discriminate].
  apply match_at_In in M. destruct M as [_ M].
  cbn [run] in M.
  apply in_flat_map in M. destruct M as [c1 [M1 M]].
  apply in_flat_map in M. destruct M as [c2 [M2 M]].
  apply in_flat_map in M. destruct M as [c3 [M3 M]].
  destruct M as [M|[]].
  destruct (run_group_caps re_I "B" Rb eq_refl _ _ M1) as [vb Hb].
  pose proof (run_nogroup_caps re_I Ws eq_refl _ _ M2) as Hw.
  destruct (run_group_caps re_I "Y" Ry eq_refl _ _ M3) as [vy Hy].
  assert (D : found_day found = 1%Z).
  { unfold found_day, group. rewrite <- M, Hy, Hw, Hb. reflexivity. }
  destruct (rest (m_end found)); [|discriminate].
  destruct (found_month found) as [mo|]; [|discriminate].
  destruct (found_year found <? 1)%Z; [discriminate|].
  destruct (days_in_month (found_year found) mo <? found_day found)%Z;
    [discriminate|].
  intros [= <-]. exact D.
Qed.

Lemma strftime_first_day (t : datetime) :
  day t = 1%Z ->
  strftime_dBY t
  = ("01 " ++ month_name (month t) ++ " " ++ zpad 4 (year t))%string.
Proof. intros D. unfold strftime_dBY. rewrite D. reflexivity. Qed.

(** C4, as the code has it.  The format list contains "%B %Y".  An
    occurrence in the text that no day-bearing format before it parses
    and that "%B %Y" parses is resolved by [extract_future_dates] to
    the first day of its month: this is the parsed date of the match,
    and whenever that date is strictly later than the clock the
    function returns a list that holds the occurrence in the form
    "01 MonthName YYYY". *)
Theorem month_year_resolved_to_first_day
        (now : datetime) (text : string) (m : rmatch) (t : datetime) :
  In m (re_finditer re_I date_pattern text) ->
  try_formats (replace "," "" (cleaned_date_str (strip (group0 m))))
              ["%d %B %Y"; "%B %d, %Y"] = Ok None ->
  strptime (replace "," "" (cleaned_date_str (strip (group0 m)))) "%B %Y"
  = Ok t ->
  parsed_of m = [t]
  /\ day t = 1%Z
  /\ (dt_ltb now t = true ->
      exists dates,
        extract_future_dates now text = Ok (dates, List.length dates)
        /\ In ("01 " ++ month_name (month t) ++ " " ++ zpad 4 (year t))%string
              dates).
Proof.
  intros Hm H12 H3.
  assert (P : parse_date_str (strip (group0 m)) = Ok (Some t)).
  { unfold parse_date_str, formats_to_try.
    cbn [try_formats] in H12 |- *.
    destruct (strptime (replace "," "" (cleaned_date_str (strip (group0 m))))
                       "%d %B %Y")
      as [t1|[]]; try discriminate.
    destruct (strptime (replace "," "" (cleaned_date_str (strip (group0 m))))
                       "%B %d, %Y")
      as [t2|[]]; try discriminate.
    now rewrite H3. }
  assert (Q : parsed_of m = [t]) by (unfold parsed_of; now rewrite P).
  pose proof (strptime_month_year_day _ _ H3) as D.
  split; [exact Q|]. split; [exact D|].
  intros L.
  destruct (extract_future_dates_output now text) as [dates [E [_ [_ I]]]].
  exists dates. split; [exact E|].
  apply I. exists t. split; [|split].
  - unfold parsed_dates. apply in_flat_map. exists m. split; [exact Hm|].
    rewrite Q. now left.
  - exact L.
  - symmetry. now apply strftime_first_day.
Qed.

Lemma month_year_resolved_to_first_day_witness :
  exists m,
    In m (re_finditer re_I date_pattern "The trial begins in March 2026.")
    /\ group0 m = "March 2026"
    /\ parsed_of m = [midnight 2026 3 1]
    /\ day (midnight 2026 3 1) = 1%Z
    /\ dt_ltb early_2025 (midnight 2026 3 1) = true
    /\ exists dates,
         extract_future_dates early_2025 "The trial begins in March 2026."
         = Ok (dates, List.length dates)
         /\ In "01 March 2026" dates.
Proof.
  destruct (re_finditer re_I date_pattern "The trial begins in March 2026.")
    as [|m ms] eqn:E; [vm_compute in E; discriminate|].
  assert (Hm : In m (re_finditer re_I date_pattern
                                 "The trial begins in March 2026."))
    by (rewrite E; now left).
  vm_compute in E. injection E as <- <-.
  match type of Hm with In ?x _ => exists x end.
  split; [exact Hm|]. split; [vm_compute; reflexivity|].
  match type of Hm with
  | In ?x _ =>
      destruct (month_year_resolved_to_first_day
                  early_2025 "The trial begins in March 2026." x
                  (midnight 2026 3 1) Hm)
        as [Q [D R]]
  end.
  - vm_compute. reflexivity.
  - vm_compute. reflexivity.
  - split; [exact Q|]. split; [exact D|].
    split; [vm_compute; reflexivity|].
    apply R. vm_compute. reflexivity.
Defined.

(** The twelve months of 2026, on the whole function *)
Lemma month_year_2026 (now : datetime) (m : Z) :
  (year now < 2026)%Z -> (1 <= m <= 12)%Z ->
  extract_future_dates now (month_name m ++ " 2026")
  = Ok ([("01 " ++ month_name m ++ " 2026")%string], 1%nat).
Proof.
  intros Hy Hm. rewrite extract_future_dates_spec.
  assert (E : parsed_dates (month_name m ++ " 2026") = [midnight 2026 m 1]).
  { assert (C : (m = 1 \/ m = 2 \/ m = 3 \/ m = 4 \/ m = 5 \/ m = 6 \/ m = 7
                 \/ m = 8 \/ m = 9 \/ m = 10 \/ m = 11 \/ m = 12)%Z) by lia.
    repeat (destruct C as [->|C]); try subst m; vm_compute; reflexivity. }
  rewrite E. cbn [List.filter].
  rewrite (dt_ltb_year now (midnight 2026 m 1) Hy).
  assert (C : (m = 1 \/ m = 2 \/ m = 3 \/ m = 4 \/ m = 5 \/ m = 6 \/ m = 7
               \/ m = 8 \/ m = 9 \/ m = 10 \/ m = 11 \/ m = 12)%Z) by lia.
  repeat (destruct C as [->|C]); try subst m; vm_compute; reflexivity.
Qed.

(** C4 as stated fails: a month-year-only occurrence is reported, with
    the day 01. *)
Lemma month_year_reported_with_day :
  List.map group0
    (re_finditer re_I date_pattern "The trial begins in March 2026.")
  = ["March 2026"]
  /\ extract_future_dates early_2025 "The trial begins in March 2026."
     = Ok (["01 March 2026"], 1%nat).
Proof. split; vm_compute; reflexivity. Qed.

(* ================================================================== *)
(** * Further properties of the code *)

(** ** The date extractor over every text and clock *)

(** X1.  For every text and every clock [extract_future_dates] returns
    (it never raises): the count is the length of the list, no element
    repeats, the elements are in ascending order of the strings, and the
    list holds exactly the normal forms of the dates parsed from the
    matches that are strictly after the clock. *)
Theorem future_dates_distinct_ordered_future (now : datetime) (text : string) :
  exists dates,
    extract_future_dates now text = Ok (dates, List.length dates)
    /\ NoDup dates
    /\ Sorted (fun a b => str_leb a b = true) dates
    /\ forall s, In s dates <->
                 exists t, In t (parsed_dates text)
                           /\ dt_ltb now t = true /\ s = strftime_dBY t.
Proof. exact (extract_future_dates_output now text). Qed.

Lemma lex_compare_le_lt (a b c : list Z) :
  lex_compare a b <> Gt -> lex_compare b c = Lt -> lex_compare a c = Lt.
Proof.
  revert b c. induction a as [|x a IH]; intros [|y b] [|z c]; simpl;
    try congruence.
  destruct (Z.compare_spec x y) as [->|Hxy|Hxy]; [| |congruence].
  - destruct (Z.compare_spec y z) as [->|Hyz|Hyz]; try congruence.
    apply IH.
  - intros _. destruct (Z.compare_spec y z) as [->|Hyz|Hyz]; try congruence.
    + intros _. now rewrite (proj2 (Z.compare_lt_iff _ _) Hxy).
    + intros _. assert (H : (x < z)%Z) by lia.
      now rewrite (proj2 (Z.compare_lt_iff _ _) H).
Qed.

Lemma dt_leb_ltb_trans (a b c : datetime) :
  dt_leb a b = true -> dt_ltb b c = true -> dt_ltb a c = true.
Proof.
  unfold dt_leb, dt_ltb, dt_compare. intros H1 H2.
  rewrite (lex_compare_le_lt (fields a) (fields b) (fields c)); [reflexivity| |].
  - destruct (lex_compare (fields a) (fields b)); congruence.
  - destruct (lex_compare (fields b) (fields c)); congruence.
Qed.

(** X2.  The output only shrinks as the clock advances: every date
    returned at a later instant is returned at an earlier one, and the
    count does not grow. *)
Theorem future_dates_shrink_with_clock
        (now1 now2 : datetime) (text : string)
        (dates1 dates2 : list string) (n1 n2 : nat) :
  dt_leb now1 now2 = true ->
  extract_future_dates now1 text = Ok (dates1, n1) ->
  extract_future_dates now2 text = Ok (dates2, n2) ->
  incl dates2 dates1 /\ (n2 <= n1)%nat.
Proof.
  intros Hle H1 H2.
  destruct (extract_future_dates_output now1 text) as [d1 [E1 [_ [_ M1]]]].
  destruct (extract_future_dates_output now2 text) as [d2 [E2 [N2 [_ M2]]]].
  rewrite E1 in H1. rewrite E2 in H2.
  injection H1 as <- <-. injection H2 as <- <-.
  assert (I : incl d2 d1).
  { intros s Hs. apply M2 in Hs. destruct Hs as [t [Ht [Hn ->]]].
    apply M1. exists t. repeat split; [exact Ht|].
    exact (dt_leb_ltb_trans now1 now2 t Hle Hn). }
  split; [exact I|]. exact (NoDup_incl_length N2 I).
Qed.

Lemma future_dates_shrink_with_clock_witness :
  incl ["15 March 2099"] ["01 March 2026"; "15 March 2099"] /\ (1 <= 2)%nat.
Proof.
  apply (future_dates_shrink_with_clock
           early_2025 (midnight 2030 1 1)
           "Trial in March 2026, judgment on 15 March 2099."
           ["01 March 2026"; "15 March 2099"] ["15 March 2099"] 2 1).
  - vm_compute. reflexivity.
  - vm_compute. reflexivity.
  - vm_compute. reflexivity.
Defined.

(** ** The timeline and the clock *)

Lemma insert_by_map (A B : Type) (f : B -> A)
      (lebA : A -> A -> bool) (lebB : B -> B -> bool) :
  (forall a b, lebA (f a) (f b) = lebB a b) ->
  forall x l, insert_by lebA (f x) (List.map f l) = List.map f (insert_by lebB x l).
Proof.
  intros H x l. induction l as [|y l IH]; [reflexivity|].
  simpl. rewrite H. destruct (lebB x y); [reflexivity|].
  simpl. now rewrite IH.
Qed.

Lemma sort_by_map (A B : Type) (f : B -> A)
      (lebA : A -> A -> bool) (lebB : B -> B -> bool) :
  (forall a b, lebA (f a) (f b) = lebB a b) ->
  forall l, sort_by lebA (List.map f l) = List.map f (sort_by lebB l).
Proof.
  intros H l. induction l as [|x l IH]; [reflexivity|].
  simpl. rewrite IH. now apply insert_by_map.
Qed.

Lemma row_data_make_event (now : datetime) (c : candidate) :
  row_data (make_event now c) = c.
Proof. now destruct c as [[t ds] txt]. Qed.

Lemma sort_events_make_event (now : datetime) (cs : list candidate) :
  sort_events (List.map (make_event now) cs)
  = List.map (make_event now) (sort_by candidate_leb cs).
Proof.
  unfold sort_events. apply sort_by_map.
  intros [[t1 d1] x1] [[t2 d2] x2]. reflexivity.
Qed.

(** X3.  Only the status column depends on the clock.  Whether the
    timeline raises, which exception it raises, and the dates, matched
    texts and descriptions of its rows, in table order, are the same at
    every instant: they are the candidates of the sentences in stable
    date order. *)
Theorem timeline_rows_independent_of_clock (now : datetime) (text : string) :
  match candidates (re_split no_flags sentence_boundary text) with
  | Ok cs =>
      exists events,
        timeline_events now text = Ok events
        /\ List.map row_data events = sort_by candidate_leb cs
  | Raise e => timeline_events now text = Raise e
  end.
Proof.
  rewrite timeline_events_spec.
  destruct (candidates (re_split no_flags sentence_boundary text)) as [cs|e];
    [|reflexivity].
  eexists. split; [reflexivity|].
  rewrite sort_events_make_event, map_map.
  rewrite (map_ext _ (fun c => c) (row_data_make_event now)). apply map_id.
Qed.

Lemma dt_ltb_leb_trans (a b c : datetime) :
  dt_ltb a b = true -> dt_leb b c = true -> dt_ltb a c = true.
Proof.
  intros H1 H2. rewrite dt_ltb_leb. apply negb_true_iff.
  destruct (dt_leb c a) eqn:E; [|reflexivity].
  pose proof (dt_leb_ltb_trans c a b E H1) as H.
  rewrite dt_ltb_leb, H2 in H. discriminate.
Qed.

(** X4.  As the clock advances the rows stay the same and in the same
    order, and an event that was Completed stays Completed. *)
Theorem timeline_status_monotone
        (now1 now2 : datetime) (text : string) (events1 events2 : list event) :
  dt_leb now1 now2 = true ->
  timeline_events now1 text = Ok events1 ->
  timeline_events now2 text = Ok events2 ->
  Forall2 (fun a b => row_data a = row_data b
                      /\ (ev_status a = Completed -> ev_status b = Completed))
          events1 events2.
Proof.
  intros Hle H1 H2. rewrite timeline_events_spec in H1, H2.
  destruct (candidates (re_split no_flags sentence_boundary text)) as [cs|e];
    [|discriminate].
  cbn [bind] in H1, H2. injection H1 as <-. injection H2 as <-.
  rewrite !sort_events_make_event.
  induction (sort_by candidate_leb cs) as [|c l IH]; simpl; constructor;
    [|exact IH].
  rewrite !row_data_make_event. split; [reflexivity|].
  destruct c as [[t ds] txt]. unfold make_event, classify. cbn [ev_status].
  destruct (dt_ltb t now1) eqn:E; [|discriminate].
  intros _. now rewrite (dt_ltb_leb_trans t now1 now2 E Hle).
Qed.

Lemma timeline_status_monotone_witness :
  Forall2 (fun a b => row_data a = row_data b
                      /\ (ev_status a = Completed -> ev_status b = Completed))
          timeline_sample_events
          (List.map (fun e => {| parsed_date := parsed_date e;
                                 date_str := date_str e;
                                 event_text := event_text e;
                                 ev_status := Completed |})
                    timeline_sample_events).
Proof.
  apply (timeline_status_monotone timeline_sample_now (midnight 2031 1 1)
                                  timeline_sample_text).
  - vm_compute. reflexivity.
  - vm_compute. reflexivity.
  - vm_compute. reflexivity.
Defined.

(** ** When the timeline raises *)

Lemma candidates_raises (sentences : list string) (e : exn) :
  candidates sentences = Raise e ->
  exists sentence, In sentence sentences /\ sentence_candidate sentence = Raise e.
Proof.
  induction sentences as [|s ss IH]; [discriminate|].
  cbn [candidates].
  destruct (sentence_candidate s) as [c|e'] eqn:E; cbn [bind].
  - destruct (candidates ss) as [cs|e'']; cbn [bind]; [discriminate|].
    intros [= <-]. destruct (IH eq_refl) as [s' [Hin H]].
    exists s'. split; [now right|exact H].
  - intros [= <-]. exists s. split; [now left|exact E].
Qed.

(** X5.  The only exception [generate_case_timeline] raises is the
    [ValueError] of the month-year fallback: some sentence has a match
    that none of the four formats parses, that starts with a month name,
    white space and four digits, and for which the fifteenth of that
    month and year is not a date. *)
Theorem timeline_raises_only_from_fallback
        (now : datetime) (text : string) (e : exn) :
  generate_case_timeline now text = Raise e ->
  exists sentence m month_match msg,
    In sentence (re_split no_flags sentence_boundary text)
    /\ re_search re_I timeline_date_pattern sentence = Some m
    /\ try_formats_any (replace "," "" (strip (group0 m))) timeline_formats = None
    /\ re_match re_I month_year_pattern (strip (group0 m)) = Some month_match
    /\ strptime ("15 " ++ group_or_empty "1" month_match ++ " "
                       ++ group_or_empty "2" month_match) "%d %B %Y"
       = Raise e
    /\ e = ValueError msg.
Proof.
  unfold generate_case_timeline. rewrite timeline_events_spec.
  destruct (candidates (re_split no_flags sentence_boundary text)) as [cs|e']
    eqn:C; cbn [bind].
  - destruct (sort_events (List.map (make_event now) cs)); discriminate.
  - intros [= <-]. apply candidates_raises in C.
    destruct C as [sentence [Hin Hs]]. unfold sentence_candidate in Hs.
    destruct (re_search re_I timeline_date_pattern sentence) as [m|] eqn:S;
      [|discriminate].
    destruct (timeline_parse (strip (group0 m))) as [[t|]|e''] eqn:P;
      cbn [bind] in Hs.
    + destruct (String.length (clean_event_text sentence) <? 5)%nat; discriminate.
    + discriminate.
    + injection Hs as ->. apply timeline_parse_raises in P.
      destruct P as [Hf [mm [Hm Hr]]].
      destruct (strptime_raises_ValueError _ _ _ Hr) as [msg ->].
      exists sentence, m, mm, msg. repeat split; assumption.
Qed.

Lemma timeline_raises_only_from_fallback_witness :
  exists sentence m month_match msg,
    In sentence (re_split no_flags sentence_boundary
                          "The hearing in March 0000 was adjourned.")
    /\ re_search re_I timeline_date_pattern sentence = Some m
    /\ try_formats_any (replace "," "" (strip (group0 m))) timeline_formats = None
    /\ re_match re_I month_year_pattern (strip (group0 m)) = Some month_match
    /\ strptime ("15 " ++ group_or_empty "1" month_match ++ " "
                       ++ group_or_empty "2" month_match) "%d %B %Y"
       = Raise (ValueError "year 0 is out of range")
    /\ ValueError "year 0 is out of range" = ValueError msg.
Proof.
  apply (timeline_raises_only_from_fallback
           early_2025 "The hearing in March 0000 was adjourned.").
  vm_compute. reflexivity.
Defined.

(** ** The handler: authorization *)

(** X6.  Unless the request carries an [Authorization] header that
    starts with "Bearer " and whose token the verifier accepts, the
    handler raises 401 or 403: no file is read, no service is called and
    nothing is stored. *)
Theorem upload_requires_verified_bearer
        (sv : services) (files : list upload_file)
        (client_name file_type : string) (authorization : option string)
        (w : world) :
  (forall a uid,
      authorization = Some a -> prefix "Bearer " a = true ->
      verify_id_token sv (nth 1 (str_split "Bearer " a) EmptyString) <> Ok uid) ->
  upload_and_summarize sv files client_name file_type authorization w
  = (w, Raise (HTTPException 401 "Missing or invalid Authorization header"))
  \/ upload_and_summarize sv files client_name file_type authorization w
     = (w, Raise (HTTPException 403 "Invalid or expired Firebase token")).
Proof.
  intros H. unfold upload_and_summarize.
  destruct authorization as [a|]; [|now left].
  destruct (negb (nonempty a)); [now left|]. cbn [orb].
  destruct (prefix "Bearer " a) eqn:P; [|now left]. cbn [negb].
  unfold verify_firebase_token.
  destruct (verify_id_token sv (nth 1 (str_split "Bearer " a) EmptyString))
    as [uid|e] eqn:V; [|now right].
  exfalso. exact (H a uid eq_refl P V).
Qed.

Lemma upload_requires_verified_bearer_witness :
  upload_and_summarize failing_on_appeal two_uploads "client" "Court Order"
                       (Some "Basic dXNlcjpwdw==") empty_world
  = (empty_world,
     Raise (HTTPException 401 "Missing or invalid Authorization header"))
  \/ upload_and_summarize failing_on_appeal two_uploads "client" "Court Order"
                          (Some "Basic dXNlcjpwdw==") empty_world
     = (empty_world,
        Raise (HTTPException 403 "Invalid or expired Firebase token")).
Proof.
  apply (upload_requires_verified_bearer
           failing_on_appeal two_uploads "client" "Court Order"
           (Some "Basic dXNlcjpwdw==") empty_world).
  intros a uid [= <-] P. vm_compute in P. discriminate P.
Defined.

Lemma str_split_no_sep (sep piece s : string) :
  contains sep s = false ->
  str_split_from sep 0 piece s = [rev_append piece s].
Proof.
  revert piece. induction s as [|c s IH]; intros piece H; [reflexivity|].
  cbn [contains] in H. apply orb_false_iff in H. destruct H as [Hp Hc].
  cbn [str_split_from]. rewrite Hp. exact (IH (String c piece) Hc).
Qed.

Lemma prefix_nil (s : string) : prefix "" s = true.
Proof. now destruct s. Qed.

Lemma prefix_bearer (s : string) : prefix "Bearer " ("Bearer " ++ s) = true.
Proof. cbn. apply prefix_nil. Qed.

Lemma bearer_token_extracted (id_token : string) :
  contains "Bearer " id_token = false ->
  nth 1 (str_split "Bearer " (authorization_header id_token)) EmptyString
  = id_token.
Proof.
  intros H. unfold str_split, authorization_header.
  assert (E : str_split_from "Bearer " 0 "" ("Bearer " ++ id_token)
              = rev "" :: str_split_from "Bearer " 0 "" id_token).
  { pose proof (prefix_bearer id_token) as P.
    cbn [append] in P |- *. cbn [str_split_from]. rewrite P. reflexivity. }
  rewrite E. now rewrite (str_split_no_sep "Bearer " "" id_token H).
Qed.

(** X7.  The header the client builds and the token the handler reads
    from it agree: for an ID token that does not itself contain
    "Bearer ", the handler verifies exactly the token the client put in
    the header, and processes the files under the uid it yields. *)
Theorem client_header_round_trip
        (sv : services) (files : list upload_file)
        (client_name file_type id_token : string) (w : world) :
  contains "Bearer " id_token = false ->
  upload_and_summarize sv files client_name file_type
                       (Some (authorization_header id_token)) w
  = match verify_id_token sv id_token with
    | Ok uid => process_files sv uid client_name file_type files [] w
    | Raise _ => (w, Raise (HTTPException 403 "Invalid or expired Firebase token"))
    end.
Proof.
  intros H. unfold upload_and_summarize.
  rewrite (bearer_token_extracted id_token H).
  unfold authorization_header at 1 2. rewrite prefix_bearer.
  cbn [append nonempty negb orb]. unfold verify_firebase_token.
  now destruct (verify_id_token sv id_token).
Qed.

Lemma client_header_round_trip_witness :
  upload_and_summarize failing_on_appeal [] "client" "Court Order"
                       (Some (authorization_header "eyJhbGciOi.token")) empty_world
  = match verify_id_token failing_on_appeal "eyJhbGciOi.token" with
    | Ok uid => process_files failing_on_appeal uid "client" "Court Order" [] []
                              empty_world
    | Raise _ => (empty_world,
                  Raise (HTTPException 403 "Invalid or expired Firebase token"))
    end.
Proof.
  apply (client_header_round_trip failing_on_appeal [] "client" "Court Order"
                                  "eyJhbGciOi.token" empty_world).
  vm_compute. reflexivity.
Defined.

(** ** The handler: what a batch returns and stores *)

Lemma process_file_blank
      (sv : services) (user_id client_name file_type : string)
      (file : upload_file) (w : world) :
  extract_text_from_pdf sv (file_content file) = Ok EmptyString ->
  process_file sv user_id client_name file_type file w = (w, Ok None).
Proof.
  intros H. unfold process_file, and_then, lift. rewrite H. reflexivity.
Qed.

(** X8.  A document from which no text is extracted is dropped: the
    batch behaves, for the response and for what is stored, as if the
    file had not been uploaded, and no error is raised for it. *)
Theorem blank_document_dropped
        (sv : services) (user_id client_name file_type : string)
        (before after : list upload_file) (blank : upload_file)
        (summaries : list document_result) (w : world) :
  extract_text_from_pdf sv (file_content blank) = Ok EmptyString ->
  process_files sv user_id client_name file_type
                (before ++ blank :: after) summaries w
  = process_files sv user_id client_name file_type
                  (before ++ after) summaries w.
Proof.
  intros H. rewrite !process_files_app.
  destruct (process_files sv user_id client_name file_type before summaries w)
    as [w1 [s1|e]]; [|reflexivity].
  cbn [process_files]. unfold and_then at 1.
  now rewrite (process_file_blank sv user_id client_name file_type blank w1 H).
Qed.

Lemma blank_document_dropped_witness :
  process_files failing_on_appeal "uid" "client" "Court Order"
                ([nth 0 two_uploads {| filename := ""; file_content := "" |}]
                   ++ {| filename := "scan.pdf"; file_content := "   " |} :: [])
                [] empty_world
  = process_files failing_on_appeal "uid" "client" "Court Order"
                  ([nth 0 two_uploads {| filename := ""; file_content := "" |}]
                     ++ [])
                  [] empty_world.
Proof.
  apply (blank_document_dropped failing_on_appeal "uid" "client" "Court Order").
  vm_compute. reflexivity.
Defined.

Lemma process_file_returns
      (sv : services) (user_id client_name file_type : string)
      (file : upload_file) (w w' : world) (r : option document_result) :
  process_file sv user_id client_name file_type file w = (w', Ok r) ->
  match r with
  | None => w' = w
  | Some doc =>
      r_filename doc = filename file
      /\ firestore w'
         = firestore w ++ [stored_as user_id client_name file_type doc]
      /\ ticks w' = (ticks w + 2)%nat
  end.
Proof.
  unfold process_file, and_then, lift, ret, datetime_now, firestore_set.
  destruct (extract_text_from_pdf sv (file_content file)) as [text|e];
    [|discriminate].
  destruct (negb (nonempty text)); [intros [= <- <-]; reflexivity|].
  destruct (summarize_with_gemini sv text) as [summary|e]; [|discriminate].
  destruct (extract_structured_summary sv text) as [sd|e]; [|discriminate].
  cbn [firestore ticks].
  destruct (extract_future_dates (clock sv (ticks w)) text) as [[fd dc]|e];
    [|discriminate].
  destruct (extract_case_numbers text) as [cn cc]. cbn [firestore ticks].
  destruct (generate_case_timeline (clock sv (S (ticks w))) text) as [tl|e];
    [|discriminate].
  destruct (sections_found_count sd) as [n|e]; [|discriminate].
  intros [= <- <-]. cbn [r_filename firestore ticks].
  repeat split. lia.
Qed.

Lemma process_files_returns
      (sv : services) (user_id client_name file_type : string)
      (files : list upload_file) (summaries results : list document_result)
      (w w' : world) :
  process_files sv user_id client_name file_type files summaries w
  = (w', Ok results) ->
  exists new,
    results = summaries ++ new
    /\ firestore w'
       = firestore w ++ List.map (stored_as user_id client_name file_type) new
    /\ ticks w' = (ticks w + 2 * List.length new)%nat
    /\ subseq (List.map r_filename new) (List.map filename files).
Proof.
  revert summaries w. induction files as [|f files IH]; intros summaries w.
  - cbn [process_files]. unfold ret. intros [= <- <-]. exists [].
    rewrite !app_nil_r. cbn. repeat split; [lia|constructor].
  - cbn [process_files]. unfold and_then at 1.
    destruct (process_file sv user_id client_name file_type f w)
      as [w1 [r|e]] eqn:P; [|discriminate].
    apply process_file_returns in P. intros H. apply IH in H.
    destruct H as [new [-> [Hf [Ht Hs]]]]. destruct r as [doc|].
    + destruct P as [Hn [Pf Pt]]. exists (doc :: new).
      rewrite <- app_assoc. split; [reflexivity|]. split; [|split].
      * rewrite Hf, Pf, <- app_assoc. reflexivity.
      * rewrite Ht, Pt. cbn [List.length]. lia.
      * cbn [List.map]. rewrite Hn. now constructor.
    + subst w1. exists new. repeat split; try assumption.
      cbn [List.map]. now constructor.
Qed.

(** X9.  When the handler answers, what it answers is what it stored:
    the request carried a header whose token [verify_id_token] accepted,
    and the Firestore collection has grown by exactly the returned
    results, in the order of the response and under the uid that the
    token yields and the client name and file type of the request; the
    results follow the order of the uploaded files (skipped files left
    out); and the clock was read twice for each result. *)
Theorem upload_stores_what_it_returns
        (sv : services) (files : list upload_file)
        (client_name file_type : string) (authorization : option string)
        (w w' : world) (results : list document_result) :
  upload_and_summarize sv files client_name file_type authorization w
  = (w', Ok results) ->
  exists header user_id,
    authorization = Some header
    /\ verify_id_token sv (nth 1 (str_split "Bearer " header) EmptyString)
       = Ok user_id
    /\ firestore w'
       = firestore w ++ List.map (stored_as user_id client_name file_type) results
    /\ ticks w' = (ticks w + 2 * List.length results)%nat
    /\ subseq (List.map r_filename results) (List.map filename files).
Proof.
  unfold upload_and_summarize. destruct authorization as [a|]; [|discriminate].
  destruct (negb (nonempty a) || negb (prefix "Bearer " a)); [discriminate|].
  unfold verify_firebase_token.
  destruct (verify_id_token sv (nth 1 (str_split "Bearer " a) EmptyString))
    as [uid|e] eqn:V; [|discriminate].
  intros H. apply process_files_returns in H.
  destruct H as [new [-> H]]. exists a, uid.
  split; [reflexivity|]. split; [exact V|]. exact H.
Qed.

Lemma upload_stores_what_it_returns_witness :
  exists header,
    Some "Bearer token" = Some header
    /\ verify_id_token failing_on_appeal
         (nth 1 (str_split "Bearer " header) EmptyString)
       = Ok "token"
    /\ firestore
         (fst (upload_and_summarize failing_on_appeal
              [nth 0 two_uploads {| filename := ""; file_content := "" |}]
              "client" "Court Order" (Some "Bearer token") empty_world))
       = firestore empty_world
         ++ List.map (stored_as "token" "client" "Court Order")
         (match snd (upload_and_summarize failing_on_appeal
              [nth 0 two_uploads {| filename := ""; file_content := "" |}]
              "client" "Court Order" (Some "Bearer token") empty_world)
          with Ok r => r | Raise _ => [] end)
    /\ ticks
         (fst (upload_and_summarize failing_on_appeal
              [nth 0 two_uploads {| filename := ""; file_content := "" |}]
              "client" "Court Order" (Some "Bearer token") empty_world))
       = (ticks empty_world + 2 * List.length
         (match snd (upload_and_summarize failing_on_appeal
              [nth 0 two_uploads {| filename := ""; file_content := "" |}]
              "client" "Court Order" (Some "Bearer token") empty_world)
          with Ok r => r | Raise _ => [] end))%nat
    /\ subseq
         (List.map r_filename
         (match snd (upload_and_summarize failing_on_appeal
              [nth 0 two_uploads {| filename := ""; file_content := "" |}]
              "client" "Court Order" (Some "Bearer token") empty_world)
          with Ok r => r | Raise _ => [] end))
         (List.map filename
            [nth 0 two_uploads {| filename := ""; file_content := "" |}]).
Proof.
  destruct (upload_stores_what_it_returns
              failing_on_appeal
              [nth 0 two_uploads {| filename := ""; file_content := "" |}]
              "client" "Court Order" (Some "Bearer token") empty_world
              (fst (upload_and_summarize failing_on_appeal
              [nth 0 two_uploads {| filename := ""; file_content := "" |}]
              "client" "Court Order" (Some "Bearer token") empty_world))
              (match snd (upload_and_summarize failing_on_appeal
              [nth 0 two_uploads {| filename := ""; file_content := "" |}]
              "client" "Court Order" (Some "Bearer token") empty_world)
          with Ok r => r | Raise _ => [] end))
    as [header [uid [Ha [Hv H]]]].
  - vm_compute. reflexivity.
  - injection Ha as <-. exists "Bearer token". split; [reflexivity|].
    vm_compute in Hv. injection Hv as <-.
    split; [vm_compute; reflexivity|]. exact H.
Defined.

(** ** The structured summary is a JSON object *)

Lemma between_append (c c' : cursor) (a : string) :
  rest c = (a ++ rest c')%string -> between c c' = a.
Proof.
  intros H. unfold between. rewrite H, length_append, Nat.add_sub.
  apply firstn_append.
Qed.

Lemma json_span_group0 (s : string) (m : rmatch) :
  re_search re_S json_span s = Some m ->
  exists mid, group0 m = ("{" ++ mid ++ "}")%string.
Proof.
  unfold re_search. intros H.
  destruct (search_from_start _ _ _ _ _ H) as [pre [_ Hm]].
  destruct (match_at_In _ _ _ _ Hm) as [_ Hin].
  destruct (json_span_shape _ _ Hin) as [mid Hmid].
  exists mid. unfold group0. apply between_append.
  change (rest (clear_caps (m_start m))) with (rest (m_start m)) in Hmid.
  rewrite Hmid. cbn [append]. now rewrite append_assoc.
Qed.

Lemma object_members_object (fuel : nat) (s : string)
      (pairs : list (string * json)) (v : json) (r : string) :
  object_members fuel s pairs = Ok (v, r) -> exists members, v = JObject members.
Proof.
  revert s pairs. induction fuel as [|fuel IH]; intros s pairs;
    cbn [object_members]; [discriminate|].
  destruct (scanstring (S (String.length s)) s "") as [k|e]; cbn [bind];
    [|discriminate].
  destruct (skip_ws (snd k)) as [|c s1]; [discriminate|].
  destruct (Ascii.eqb c ":"); [|discriminate].
  destruct (scan_once fuel (skip_ws s1)) as [x|e]; cbn [bind]; [|discriminate].
  destruct (skip_ws (snd x)) as [|c2 s2]; [discriminate|].
  destruct (Ascii.eqb c2 "}"); [intros [= <- _]; eauto|].
  destruct (Ascii.eqb c2 ","); [|discriminate].
  destruct (skip_ws s2) as [|c3 s3]; [discriminate|].
  destruct (Ascii.eqb c3 dquote); [apply IH|discriminate].
Qed.

Lemma json_loads_brace (s : string) (v : json) :
  json_loads (String "{" s) = Ok v -> exists members, v = JObject members.
Proof.
  unfold json_loads.
  change (skip_ws (String "{" s)) with (String "{" s).
  cbn [scan_once].
  change (Ascii.eqb "{" dquote) with false.
  change (Ascii.eqb "{" "{") with true. cbv iota.
  destruct (skip_ws s) as [|c1 s1]; cbn [bind]; [discriminate|].
  destruct (Ascii.eqb c1 "}").
  - cbn [bind fst snd]. destruct (skip_ws s1); [|discriminate].
    intros [= <-]. eauto.
  - destruct (Ascii.eqb c1 dquote); [|discriminate].
    destruct (object_members (String.length (String "{" s)) s1 [])
      as [[x r]|e] eqn:O; cbn [bind fst snd]; [|discriminate].
    destruct (skip_ws r); [|discriminate].
    intros [= <-]. exact (object_members_object _ _ _ _ _ O).
Qed.

(** X10.  [extract_structured_summary] returns a JSON object or raises
    HTTP 500: the value it returns is the marker object or the decoding
    of a span that starts with an opening brace, which is an object;
    every failure inside it (of the service or of [json.loads]) comes
    out as an [HTTPException] with status 500 whose detail starts with
    "Gemini extraction failed: ".  The handler's [.get] on the value
    therefore never meets a non-object. *)
Theorem structured_summary_object_or_500 (sv : services) (text : string) :
  match extract_structured_summary sv text with
  | Ok v => exists members, v = JObject members
  | Raise e =>
      exists cause,
        e = HTTPException 500 ("Gemini extraction failed: " ++ exn_str cause)
  end.
Proof.
  unfold extract_structured_summary.
  destruct (generate_content sv (structured_prompt text)) as [response|e];
    cbn [bind reraise_500]; [|eauto].
  destruct (re_search re_S json_span response) as [m|] eqn:S.
  - destruct (json_span_group0 _ _ S) as [mid ->].
    destruct (json_loads ("{" ++ mid ++ "}")) as [v|e] eqn:J;
      cbn [reraise_500]; [|eauto].
    exact (json_loads_brace _ _ J).
  - cbn [reraise_500]. unfold no_json_found. eauto.
Qed.

(** ** A null sections field *)

(** X11.  The prompt asks the service to return null for a field that
    is not present.  When it does so for "Sections_Invoked", every stage
    of the document succeeds and then the count of the sections raises
    [TypeError] (the length of null): the request fails and the document
    is neither stored nor returned. *)
Theorem null_sections_abort
        (sv : services) (user_id client_name file_type : string)
        (file : upload_file) (w : world)
        (text summary table : string) (members : list (string * json)) :
  extract_text_from_pdf sv (file_content file) = Ok text ->
  nonempty text = true ->
  summarize_with_gemini sv text = Ok summary ->
  extract_structured_summary sv text = Ok (JObject members) ->
  dict_get "Sections_Invoked" members = Some JNull ->
  generate_case_timeline (clock sv (S (ticks w))) text = Ok table ->
  process_file sv user_id client_name file_type file w
  = ({| firestore := firestore w; ticks := S (S (ticks w)) |},
     Raise (TypeError "object has no len()")).
Proof.
  intros Ht Hn Hs Hx Hg Htl.
  unfold process_file, and_then, lift, ret, datetime_now, firestore_set.
  rewrite Ht, Hn, Hs, Hx. cbn [negb firestore ticks].
  destruct (extract_future_dates_returns (clock sv (ticks w)) text)
    as [dates [n ->]].
  destruct (extract_case_numbers text) as [cn cc]. cbn [firestore ticks].
  rewrite Htl.
  assert (E : sections_found_count (JObject members)
              = Raise (TypeError "object has no len()")).
  { unfold sections_found_count. destruct members as [|p members];
      [discriminate|]. cbn [truthy]. now rewrite Hg. }
  now rewrite E.
Qed.

Lemma null_sections_abort_witness :
  process_file (answering (Ok null_sections_response)) "uid" "client"
               "Court Order"
               {| filename := "order.pdf";
                  file_content := "The appeal is listed on 15 March 2099." |}
               empty_world
  = ({| firestore := firestore empty_world; ticks := S (S (ticks empty_world)) |},
     Raise (TypeError "object has no len()")).
Proof.
  apply (null_sections_abort
           (answering (Ok null_sections_response)) "uid" "client" "Court Order"
           {| filename := "order.pdf";
              file_content := "The appeal is listed on 15 March 2099." |}
           empty_world
           "The appeal is listed on 15 March 2099."
           null_sections_response
           (table_header
            ++ "| 15 March 2099 | The appeal is listed on . | "
            ++ status_str Upcoming ++ " |" ++ newline)%string
           [("Case_Name", JString "State v. Rao"); ("Sections_Invoked", JNull)]).
  - vm_compute. reflexivity.
  - reflexivity.
  - reflexivity.
  - vm_compute. reflexivity.
  - reflexivity.
  - vm_compute. reflexivity.
Defined.

(** ** Choosing the model *)

Lemma try_preferred_cons (api : genai) (x : string) (names : list string) :
  try_preferred api (x :: names)
  = if usable api x then Some x else try_preferred api names.
Proof.
  cbn [try_preferred]. unfold usable.
  destruct (get_model api ("models/" ++ x)) as [info|e]; [|reflexivity].
  now destruct (supports_generate info).
Qed.

Lemma try_preferred_first (api : genai) (before after : list string) (n : string) :
  (forall p, In p before -> usable api p = false) ->
  usable api n = true ->
  try_preferred api (before ++ n :: after) = Some n.
Proof.
  intros Hb Hn. induction before as [|y before IH]; cbn [app];
    rewrite try_preferred_cons.
  - now rewrite Hn.
  - rewrite (Hb y (or_introl eq_refl)). apply IH.
    intros p Hp. apply Hb. now right.
Qed.

Lemma try_preferred_some (api : genai) (names : list string) (n : string) :
  try_preferred api names = Some n -> In n names /\ usable api n = true.
Proof.
  induction names as [|x names IH]; [discriminate|].
  rewrite try_preferred_cons. destruct (usable api x) eqn:U.
  - intros [= <-]. split; [now left|exact U].
  - intros H. destruct (IH H). split; [now right|assumption].
Qed.

Lemma try_preferred_none (api : genai) (names : list string) :
  (forall p, In p names -> usable api p = false) ->
  try_preferred api names = None.
Proof.
  induction names as [|x names IH]; intros H; [reflexivity|].
  rewrite try_preferred_cons, (H x (or_introl eq_refl)).
  apply IH. intros p Hp. apply H. now right.
Qed.

Lemma first_listed_skip (skipped : list model_info)
      (later : list (result model_info)) :
  (forall m, In m skipped -> supports_generate m = false) ->
  first_listed (List.map Ok skipped ++ later) = first_listed later.
Proof.
  induction skipped as [|m skipped IH]; intros H; [reflexivity|].
  cbn [List.map app first_listed]. rewrite (H m (or_introl eq_refl)).
  apply IH. intros m' Hm. apply H. now right.
Qed.

Lemma first_listed_ok (models : list (result model_info)) (s : selected) :
  first_listed models = Ok s ->
  exists m, In (Ok m) models /\ supports_generate m = true
            /\ s = Fallback (name m).
Proof.
  induction models as [|[m|e] models IH]; cbn [first_listed]; try discriminate.
  destruct (supports_generate m) eqn:S.
  - intros [= <-]. exists m. repeat split; [now left|exact S].
  - intros H. destruct (IH H) as [m' [Hin R]]. exists m'.
    split; [now right|exact R].
Qed.

(** X12.  [get_gemini_model] never returns a model that does not
    generate content: a preferred model it returns is one of the three
    preferred names, known to the service and supporting
    "generateContent"; a fallback it returns is a listed model
    supporting it, returned under its listed name. *)
Theorem selected_model_generates (api : genai) (s : selected) :
  get_gemini_model api = Ok s ->
  match s with
  | Preferred n => In n preferred_models /\ usable api n = true
  | Fallback n =>
      exists m, In (Ok m) (list_models api)
                /\ supports_generate m = true /\ n = name m
  end.
Proof.
  unfold get_gemini_model.
  destruct (try_preferred api preferred_models) as [n|] eqn:T.
  - intros [= <-]. exact (try_preferred_some _ _ _ T).
  - intros H. destruct (first_listed_ok _ _ H) as [m [Hin [Hs ->]]].
    exists m. auto.
Qed.

Lemma selected_model_generates_witness :
  In "gemini-1.0-pro" preferred_models
  /\ usable sample_genai "gemini-1.0-pro" = true.
Proof.
  apply (selected_model_generates sample_genai (Preferred "gemini-1.0-pro")).
  vm_compute. reflexivity.
Defined.

(** X13.  The preferred names are tried in order and the first usable
    one wins: names before it that the service does not know, or that do
    not generate content, are passed over, and the listing is not
    consulted, so not even a failing listing matters. *)
Theorem preferred_model_priority
        (api : genai) (before after : list string) (n : string) :
  preferred_models = before ++ n :: after ->
  (forall p, In p before -> usable api p = false) ->
  usable api n = true ->
  get_gemini_model api = Ok (Preferred n).
Proof.
  intros E Hb Hn. unfold get_gemini_model. rewrite E.
  now rewrite (try_preferred_first api before after n Hb Hn).
Qed.

Lemma preferred_model_priority_witness :
  get_gemini_model sample_genai = Ok (Preferred "gemini-1.0-pro").
Proof.
  apply (preferred_model_priority
           sample_genai ["gemini-2.5-flash"; "gemini-1.5-flash"] []
           "gemini-1.0-pro").
  - reflexivity.
  - intros p [<-|[<-|[]]]; vm_compute; reflexivity.
  - vm_compute. reflexivity.
Defined.

(** X14.  When no preferred name is usable the listing decides: models
    that do not generate content are passed over; the first one that
    does is returned under its listed name; a failure of the listing
    before such a model is raised as it is; and a listing that ends
    without one raises the "No supported Gemini model found" error. *)
Theorem fallback_model_from_listing
        (api : genai) (skipped : list model_info)
        (later : list (result model_info)) :
  (forall p, In p preferred_models -> usable api p = false) ->
  list_models api = List.map Ok skipped ++ later ->
  (forall m, In m skipped -> supports_generate m = false) ->
  get_gemini_model api
  = match later with
    | [] => Raise no_model_found
    | Raise e :: _ => Raise e
    | Ok m :: rest =>
        if supports_generate m then Ok (Fallback (name m))
        else first_listed rest
    end.
Proof.
  intros Hp Hl Hs. unfold get_gemini_model.
  rewrite (try_preferred_none api preferred_models Hp), Hl.
  rewrite (first_listed_skip skipped later Hs).
  now destruct later as [|[m|e] rest].
Qed.

Lemma fallback_model_from_listing_witness :
  get_gemini_model listing_genai = Ok (Fallback "models/gemini-pro-vision").
Proof.
  apply (fallback_model_from_listing
           listing_genai
           [{| name := "models/embedding-001";
               supported_generation_methods := ["embedContent"] |}]
           [Ok {| name := "models/gemini-pro-vision";
                  supported_generation_methods := ["generateContent"] |};
            Raise (OtherError "listing interrupted")]).
  - intros p [<-|[<-|[<-|[]]]]; reflexivity.
  - reflexivity.
  - intros m [<-|[]]. reflexivity.
Defined.

(** ** Strings: reversal and stripping *)

Lemma rev_append_spec (s acc : string) :
  rev_append s acc = (rev s ++ acc)%string.
Proof.
  unfold rev. revert acc. induction s as [|c s IH]; intros acc; [reflexivity|].
  cbn [rev_append]. rewrite (IH (String c acc)), (IH (String c "")).
  now rewrite append_assoc.
Qed.

Lemma rev_cons (c : ascii) (s : string) :
  rev (String c s) = (rev s ++ String c "")%string.
Proof. unfold rev at 1. cbn [rev_append]. apply rev_append_spec. Qed.

Lemma rev_app (a b : string) : rev (a ++ b) = (rev b ++ rev a)%string.
Proof.
  induction a as [|c a IH]; cbn [append].
  - now rewrite append_nil_r.
  - now rewrite !rev_cons, IH, append_assoc.
Qed.

Lemma rev_involutive (s : string) : rev (rev s) = s.
Proof.
  induction s as [|c s IH]; [reflexivity|].
  now rewrite rev_cons, rev_app, IH.
Qed.

Lemma all_chars_app (p : ascii -> bool) (a b : string) :
  all_chars p (a ++ b) = all_chars p a && all_chars p b.
Proof.
  induction a as [|c a IH]; [reflexivity|].
  cbn [append all_chars]. now rewrite IH, andb_assoc.
Qed.

Lemma all_chars_rev (p : ascii -> bool) (s : string) :
  all_chars p (rev s) = all_chars p s.
Proof.
  induction s as [|c s IH]; [reflexivity|].
  rewrite rev_cons, all_chars_app, IH. cbn [all_chars].
  rewrite andb_true_r. apply andb_comm.
Qed.

Lemma lstrip_split (s : string) :
  exists sp, s = (sp ++ lstrip s)%string /\ all_chars is_space sp = true.
Proof.
  induction s as [|c s [sp [E H]]]; [now exists EmptyString|].
  cbn [lstrip]. destruct (is_space c) eqn:S.
  - exists (String c sp). cbn [append all_chars]. rewrite S, H, <- E. auto.
  - now exists EmptyString.
Qed.

Lemma lstrip_clean (s : string) : starts_clean (lstrip s) = true.
Proof.
  induction s as [|c s IH]; [reflexivity|]. cbn [lstrip].
  destruct (is_space c) eqn:S; [exact IH|]. cbn [starts_clean]. now rewrite S.
Qed.

Lemma lstrip_id (s : string) : starts_clean s = true -> lstrip s = s.
Proof.
  destruct s as [|c s]; [reflexivity|]. cbn [starts_clean lstrip].
  now destruct (is_space c).
Qed.

Lemma lstrip_app (u v : string) :
  starts_clean v = true -> lstrip (u ++ v) = (lstrip u ++ v)%string.
Proof.
  intros H. induction u as [|c u IH]; cbn [append].
  - now apply lstrip_id.
  - cbn [lstrip]. now destruct (is_space c).
Qed.

Lemma starts_clean_app (a b : string) :
  a <> EmptyString -> starts_clean (a ++ b) = starts_clean a.
Proof. destruct a; [congruence|reflexivity]. Qed.

(** What [strip] removes is white space at the two ends. *)
Lemma strip_split (s : string) :
  exists a b, s = (a ++ strip s ++ b)%string
              /\ all_chars is_space a = true /\ all_chars is_space b = true.
Proof.
  unfold strip.
  destruct (lstrip_split s) as [a [Ea Ha]].
  destruct (lstrip_split (rev (lstrip s))) as [b [Eb Hb]].
  exists a, (rev b). split; [|split; [exact Ha|now rewrite all_chars_rev]].
  rewrite <- rev_app, <- Eb, rev_involutive. exact Ea.
Qed.

Lemma strip_trimmed (s : string) : is_trimmed (strip s) = true.
Proof.
  unfold is_trimmed, strip. rewrite rev_involutive, lstrip_clean, andb_true_r.
  destruct (lstrip_split (rev (lstrip s))) as [b [Eb Hb]].
  set (u := lstrip (rev (lstrip s))) in *.
  assert (E : lstrip s = (rev u ++ rev b)%string)
    by (rewrite <- rev_app, <- Eb; now rewrite rev_involutive).
  destruct (rev u) as [|c t] eqn:R; [reflexivity|].
  pose proof (lstrip_clean s) as C. rewrite E in C. exact C.
Qed.

(** A text that ends in a block without white space at its ends keeps
    the block when it is stripped. *)
Lemma strip_app_block (u v : string) :
  v <> EmptyString -> is_trimmed v = true ->
  strip (u ++ v) = (lstrip u ++ v)%string.
Proof.
  intros Hv Ht. unfold is_trimmed in Ht. apply andb_true_iff in Ht.
  destruct Ht as [H1 H2]. unfold strip.
  rewrite (lstrip_app u v H1), rev_app.
  rewrite lstrip_id.
  - now rewrite <- rev_app, rev_involutive.
  - rewrite starts_clean_app; [exact H2|].
    intros E. apply Hv. rewrite <- (rev_involutive v), E. reflexivity.
Qed.

Lemma prefix_app (x b : string) : prefix x (x ++ b) = true.
Proof.
  induction x as [|c x IH]; [apply prefix_nil|].
  cbn [append prefix]. destruct (ascii_dec c c); [exact IH|congruence].
Qed.

Lemma contains_middle (a x b : string) : contains x (a ++ x ++ b) = true.
Proof.
  induction a as [|c a IH]; cbn [append].
  - destruct (x ++ b)%string eqn:E; cbn [contains];
      rewrite <- E, prefix_app; reflexivity.
  - cbn [contains]. rewrite IH. apply orb_true_r.
Qed.

(** ** Matches are pieces of the subject *)

Lemma times_suffix (body : cursor -> list cursor) :
  (forall c c', In c' (body c) -> exists a, rest c = (a ++ rest c')%string) ->
  forall n c c', In c' (times body n c) ->
                 exists a, rest c = (a ++ rest c')%string.
Proof.
  intros Hb. induction n as [|n IH]; intros c c'; cbn [times].
  - intros [<-|[]]. now exists EmptyString.
  - intros H. apply in_flat_map in H. destruct H as [c1 [H1 H2]].
    destruct (Hb _ _ H1) as [a Ha]. destruct (IH _ _ H2) as [b Hb'].
    exists (a ++ b)%string. now rewrite Ha, Hb', append_assoc.
Qed.

Lemma upto_suffix (body : cursor -> list cursor) :
  (forall c c', In c' (body c) -> exists a, rest c = (a ++ rest c')%string) ->
  forall n c c', In c' (upto body n c) ->
                 exists a, rest c = (a ++ rest c')%string.
Proof.
  intros Hb. induction n as [|n IH]; intros c c'; cbn [upto].
  - intros [<-|[]]. now exists EmptyString.
  - intros H. apply in_app_or in H.
    destruct H as [H|[<-|[]]]; [|now exists EmptyString].
    apply in_flat_map in H. destruct H as [c1 [H1 H2]].
    destruct (Hb _ _ H1) as [a Ha]. destruct (IH _ _ H2) as [b Hb'].
    exists (a ++ b)%string. now rewrite Ha, Hb', append_assoc.
Qed.

Lemma step_suffix (p : ascii -> bool) (c c' : cursor) :
  In c' (step p c) -> exists a, rest c = (a ++ rest c')%string.
Proof.
  intros H. apply step_In in H. destruct H as [x [s [E [_ ->]]]].
  exists (String x EmptyString). now rewrite E.
Qed.

(** A match ends further on in the subject it started in. *)
Lemma run_suffix (f : flags) (r : regex) (c c' : cursor) :
  In c' (run f r c) -> exists a, rest c = (a ++ rest c')%string.
Proof.
  revert c c'.
  induction r as [|a|items| |r1 IH1 r2 IH2|r1 IH1 r2 IH2|lo hi r IH| |items|nm r IH];
    intros c c'; cbn [run].
  - intros [<-|[]]. now exists EmptyString.
  - apply step_suffix.
  - apply step_suffix.
  - apply step_suffix.
  - intros H. apply in_flat_map in H. destruct H as [c1 [H1 H2]].
    destruct (IH1 _ _ H1) as [a Ha]. destruct (IH2 _ _ H2) as [b Hb].
    exists (a ++ b)%string. now rewrite Ha, Hb, append_assoc.
  - intros H. apply in_app_or in H. destruct H; [now apply IH1|now apply IH2].
  - intros H. apply in_flat_map in H. destruct H as [c1 [H1 H2]].
    destruct (times_suffix _ IH _ _ _ H1) as [a Ha].
    destruct (upto_suffix _ IH _ _ _ H2) as [b Hb].
    exists (a ++ b)%string. now rewrite Ha, Hb, append_assoc.
  - destruct (xorb (word_before c) (word_after c)); [|intros []].
    intros [<-|[]]. now exists EmptyString.
  - destruct (before c) as [|x b]; [intros []|].
    destruct (cls_test f items x); [|intros []].
    intros [<-|[]]. now exists EmptyString.
  - intros H. apply in_map_iff in H. destruct H as [c0 [<- H0]].
    exact (IH _ _ H0).
Qed.

Lemma match_at_group0 (f : flags) (r : regex) (c : cursor) (m : rmatch) :
  match_at f r c = Some m ->
  rest c = (group0 m ++ rest (m_end m))%string.
Proof.
  intros H. destruct (match_at_In _ _ _ _ H) as [Hs Hin].
  destruct (run_suffix _ _ _ _ Hin) as [a Ha].
  change (rest (clear_caps c)) with (rest c) in Ha.
  unfold group0. rewrite Hs. now rewrite (between_append c (m_end m) a Ha).
Qed.

(** Every match [finditer] reports lies in the subject. *)
Lemma finditer_from_inside (f : flags) (r : regex) (fuel : nat) (c : cursor)
      (m : rmatch) :
  In m (finditer_from f r fuel c) ->
  exists pre, rest c = (pre ++ rest (m_start m))%string
              /\ match_at f r (m_start m) = Some m.
Proof.
  revert c. induction fuel as [|fuel IH]; intros c; cbn [finditer_from];
    [intros []|].
  assert (Skip : forall x s,
             rest c = String x s ->
             In m (finditer_from f r fuel (advance x s c)) ->
             exists pre, rest c = (pre ++ rest (m_start m))%string
                         /\ match_at f r (m_start m) = Some m).
  { intros x s E H. destruct (IH _ H) as [pre [Hp Hm]]. cbn [advance rest] in Hp.
    exists (String x pre). rewrite E, Hp. auto. }
  destruct (match_at f r c) as [m0|] eqn:M.
  - intros [<-|H].
    + exists EmptyString. destruct (match_at_In _ _ _ _ M) as [-> _]. auto.
    + destruct (String.length (rest (m_end m0)) <? String.length (rest c))%nat.
      * destruct (IH _ H) as [pre [Hp Hm]].
        change (rest (clear_caps (m_end m0))) with (rest (m_end m0)) in Hp.
        exists (group0 m0 ++ pre)%string.
        rewrite (match_at_group0 _ _ _ _ M), Hp, append_assoc. auto.
      * destruct (rest c) as [|x s] eqn:E; [destruct H|].
        exact (Skip x s eq_refl H).
  - destruct (rest c) as [|x s] eqn:E; [intros []|].
    exact (Skip x s eq_refl).
Qed.

Lemma findall_inside (f : flags) (r : regex) (text g : string) :
  In g (re_findall f r text) ->
  exists pre post m,
    text = (pre ++ g ++ post)%string
    /\ g = group0 m
    /\ In (m_end m) (run f r (clear_caps (m_start m))).
Proof.
  unfold re_findall, re_finditer. intros H. apply in_map_iff in H.
  destruct H as [m [<- H]]. apply finditer_from_inside in H.
  destruct H as [pre [Hp Hm]]. cbn [start_of rest] in Hp.
  exists pre, (rest (m_end m)), m.
  rewrite Hp, (match_at_group0 _ _ _ _ Hm).
  destruct (match_at_In _ _ _ _ Hm) as [_ Hin]. auto.
Qed.

(** ** The case numbers returned *)

Lemma cls_digit (f : flags) (x : ascii) :
  cls_test f [CDigit] x = true -> is_digit x = true.
Proof.
  destruct f as [[] []];
    destruct x as [[] [] [] [] [] [] [] []]; vm_compute; congruence.
Qed.

Lemma ends_with_year_app (a b : string) :
  ends_with_year b -> ends_with_year (a ++ b).
Proof.
  intros [u [d1 [d2 [d3 [d4 [-> H]]]]]].
  exists (a ++ u)%string, d1, d2, d3, d4. now rewrite append_assoc.
Qed.

Lemma run_seq_ends_with_year (f : flags) (r1 r2 : regex) :
  (forall c1 c', In c' (run f r2 c1) ->
                 exists a, rest c1 = (a ++ rest c')%string /\ ends_with_year a) ->
  forall c c', In c' (run f (Seq r1 r2) c) ->
               exists a, rest c = (a ++ rest c')%string /\ ends_with_year a.
Proof.
  intros H2 c c' H. cbn [run] in H. apply in_flat_map in H.
  destruct H as [c1 [Hc1 Hc']].
  destruct (run_suffix _ _ _ _ Hc1) as [a Ha].
  destruct (H2 _ _ Hc') as [b [Hb Hy]].
  exists (a ++ b)%string. rewrite Ha, Hb, append_assoc.
  split; [reflexivity|now apply ends_with_year_app].
Qed.

Lemma run_year_boundary (f : flags) (c c' : cursor) :
  In c' (run f (Seq (exactly 4 d_) WordB) c) ->
  exists a, rest c = (a ++ rest c')%string /\ ends_with_year a.
Proof.
  intros H. cbn [run] in H. apply in_flat_map in H.
  destruct H as [c4 [H4 Hb]].
  destruct (xorb (word_before c4) (word_after c4)); [|destruct Hb].
  destruct Hb as [<-|[]].
  apply in_flat_map in H4. destruct H4 as [c4' [Ht Hu]].
  cbn [Nat.sub upto] in Hu. destruct Hu as [<-|[]].
  cbn [times] in Ht.
  apply in_flat_map in Ht. destruct Ht as [c1 [S1 Ht]].
  apply in_flat_map in Ht. destruct Ht as [c2 [S2 Ht]].
  apply in_flat_map in Ht. destruct Ht as [c3 [S3 Ht]].
  apply in_flat_map in Ht. destruct Ht as [c5 [S4 Ht]].
  destruct Ht as [<-|[]].
  apply step_In in S1. destruct S1 as [d1 [s1 [E1 [D1 ->]]]].
  apply step_In in S2. destruct S2 as [d2 [s2 [E2 [D2 ->]]]].
  apply step_In in S3. destruct S3 as [d3 [s3 [E3 [D3 ->]]]].
  apply step_In in S4. destruct S4 as [d4 [s4 [E4 [D4 ->]]]].
  cbn [advance rest] in *. subst s1 s2 s3.
  exists (String d1 (String d2 (String d3 (String d4 EmptyString)))).
  split; [now rewrite E1|].
  exists EmptyString, d1, d2, d3, d4.
  repeat split; now apply (cls_digit f).
Qed.

Lemma case_pattern_ends_with_year (c c' : cursor) :
  In c' (run re_I case_pattern c) ->
  exists a, rest c = (a ++ rest c')%string /\ ends_with_year a.
Proof.
  unfold case_pattern. cbn [seqs].
  do 7 (apply run_seq_ends_with_year; intros ? ?).
  apply run_year_boundary.
Qed.

Lemma year_block_trimmed (d1 d2 d3 d4 : ascii) :
  is_digit d1 = true -> is_digit d4 = true ->
  is_trimmed (String d1 (String d2 (String d3 (String d4 EmptyString)))) = true.
Proof.
  intros H1 H4. unfold is_trimmed.
  change (rev (String d1 (String d2 (String d3 (String d4 EmptyString)))))
    with (String d4 (String d3 (String d2 (String d1 EmptyString)))).
  cbn [starts_clean].
  assert (N : forall d, is_digit d = true -> is_space d = false).
  { intros d. destruct d as [[] [] [] [] [] [] [] []]; vm_compute; congruence. }
  now rewrite (N d1 H1), (N d4 H4).
Qed.

(** X15.  What [extract_case_numbers] returns, for every text: the
    count is the length of the list; no string repeats; and every string
    is a piece of the text, is not empty, has no white space at either
    end, and ends with the four digits of the year. *)
Theorem case_numbers_distinct_pieces_with_year (text : string) :
  snd (extract_case_numbers text) = List.length (fst (extract_case_numbers text))
  /\ NoDup (fst (extract_case_numbers text))
  /\ forall s, In s (fst (extract_case_numbers text)) ->
               contains s text = true
               /\ nonempty s = true
               /\ is_trimmed s = true
               /\ ends_with_year s.
Proof.
  unfold extract_case_numbers. cbn [fst snd].
  split; [reflexivity|]. split; [apply NoDup_nodup|].
  intros s Hs. unfold list_set in Hs. apply nodup_In in Hs.
  apply in_map_iff in Hs. destruct Hs as [g [<- Hg]].
  apply filter_In in Hg. destruct Hg as [Hg Hne].
  apply findall_inside in Hg.
  destruct Hg as [pre [post [m [Et [Eg Hin]]]]].
  destruct (case_pattern_ends_with_year _ _ Hin) as [a [Ea Hy]].
  change (rest (clear_caps (m_start m))) with (rest (m_start m)) in Ea.
  assert (G : g = a).
  { rewrite Eg. unfold group0. now apply between_append. }
  subst a. destruct Hy as [u [d1 [d2 [d3 [d4 [Eu [D1 [D2 [D3 D4]]]]]]]]].
  set (D := String d1 (String d2 (String d3 (String d4 EmptyString)))) in *.
  assert (S : strip g = (lstrip u ++ D)%string).
  { rewrite Eu. apply strip_app_block; [discriminate|].
    now apply year_block_trimmed. }
  split; [|split; [exact Hne|split; [apply strip_trimmed|]]].
  - destruct (lstrip_split u) as [sp [Esp _]].
    assert (T : (pre ++ (u ++ D) ++ post)%string
                = ((pre ++ sp) ++ (lstrip u ++ D) ++ post)%string).
    { rewrite Esp at 1. now rewrite !append_assoc. }
    rewrite S, Et, Eu, T. apply contains_middle.
  - rewrite S. exists (lstrip u), d1, d2, d3, d4. auto.
Qed.

(** ** The description of an event *)

Lemma cls_space (x : ascii) : cls_test no_flags [CSpace] x = is_space x.
Proof.
  unfold cls_test, item_test. cbn [existsb item_base IGNORECASE no_flags andb].
  now rewrite !orb_false_r.
Qed.

Lemma lstrip_length (s : string) : (String.length (lstrip s) <= String.length s)%nat.
Proof.
  induction s as [|c s IH]; [reflexivity|]. cbn [lstrip].
  destruct (is_space c); cbn [String.length]; lia.
Qed.

Lemma run_space (c : cursor) :
  run no_flags s_ c
  = match rest c with
    | EmptyString => []
    | String x s => if is_space x then [advance x s c] else []
    end.
Proof.
  unfold s_. cbn [run]. unfold step. destruct (rest c) as [|x s]; [reflexivity|].
  now rewrite cls_space.
Qed.

(** The longest run of white space is what a greedy [\s*] takes first. *)
Lemma upto_space_head (n : nat) (c : cursor) :
  (String.length (rest c) <= n)%nat ->
  exists c' l,
    upto (run no_flags s_) n c = c' :: l /\ rest c' = lstrip (rest c).
Proof.
  revert c. induction n as [|n IH]; intros c Hn.
  - destruct (rest c) as [|x s] eqn:E; [|cbn in Hn; lia].
    exists c, []. cbn [upto]. rewrite E. auto.
  - cbn [upto]. rewrite (run_space c).
    destruct (rest c) as [|x s] eqn:E.
    + exists c, []. rewrite E. auto.
    + cbn [lstrip]. destruct (is_space x).
      * destruct (IH (advance x s c)) as [c' [l [Hu Hr]]];
          [cbn [advance rest]; cbn [String.length] in Hn; lia|].
        cbn [flat_map]. rewrite Hu. cbn [app].
        exists c', ((l ++ []) ++ [c]). split; [reflexivity|exact Hr].
      * exists c, []. rewrite E. auto.
Qed.

Lemma match_at_spaces (c : cursor) :
  match rest c with
  | EmptyString => match_at no_flags (plus s_) c = None
  | String x s =>
      if is_space x
      then exists m, match_at no_flags (plus s_) c = Some m
                     /\ rest (m_end m) = lstrip s
      else match_at no_flags (plus s_) c = None
  end.
Proof.
  unfold match_at, plus. cbn [run times].
  change (fun c0 : cursor => run no_flags s_ c0) with (run no_flags s_).
  rewrite (run_space (clear_caps c)).
  change (rest (clear_caps c)) with (rest c).
  destruct (rest c) as [|x s]; [reflexivity|].
  destruct (is_space x); [|reflexivity].
  cbn [flat_map app advance rest].
  destruct (upto_space_head (String.length s) (advance x s (clear_caps c)))
    as [c' [l [Hu Hr]]]; [reflexivity|].
  rewrite Hu. cbn [app]. eexists. split; [reflexivity|exact Hr].
Qed.

Lemma collapse_run (s : string) : collapse true s = collapse false (lstrip s).
Proof.
  induction s as [|c s IH]; [reflexivity|]. cbn [collapse lstrip].
  destruct (is_space c) eqn:S; [exact IH|]. cbn [collapse]. now rewrite S.
Qed.

Lemma sub_spaces_from (fuel : nat) (c : cursor) :
  (String.length (rest c) < fuel)%nat ->
  sub_from no_flags (plus s_) (fun _ => " ") fuel c = collapse false (rest c).
Proof.
  revert c. induction fuel as [|fuel IH]; intros c Hf; [lia|].
  cbn [sub_from]. pose proof (match_at_spaces c) as M.
  destruct (rest c) as [|x s] eqn:E.
  - now rewrite M.
  - cbn [collapse]. destruct (is_space x).
    + destruct M as [m [-> Hr]]. rewrite Hr.
      pose proof (lstrip_length s) as L. cbn [String.length] in Hf |- *.
      replace (String.length (lstrip s) <? S (String.length s))%nat with true
        by (symmetry; apply Nat.ltb_lt; lia).
      rewrite IH.
      * change (rest (clear_caps (m_end m))) with (rest (m_end m)).
        rewrite Hr, collapse_run. reflexivity.
      * change (rest (clear_caps (m_end m))) with (rest (m_end m)).
        rewrite Hr. lia.
    + rewrite M, IH; [reflexivity|]. cbn [advance rest].
      cbn [String.length] in Hf. lia.
Qed.

(** The substitution of the source computes [collapse]. *)
Lemma sub_spaces (s : string) :
  re_sub no_flags (plus s_) (fun _ => " ") s = collapse false s.
Proof. unfold re_sub. apply sub_spaces_from. cbn [start_of rest]. lia. Qed.

Lemma collapse_chars (b : bool) (s : string) :
  all_chars space_or_ink (collapse b s) = true.
Proof.
  revert b. induction s as [|c s IH]; intros b; [reflexivity|].
  cbn [collapse]. destruct (is_space c) eqn:S.
  - destruct b; [apply IH|]. cbn [all_chars]. now rewrite IH.
  - cbn [all_chars]. unfold space_or_ink at 1. now rewrite S, IH.
Qed.

Lemma replace_chars (p : ascii -> bool) (old new : string) (k : nat) (s : string) :
  all_chars p new = true -> all_chars p s = true ->
  all_chars p (replace_from old new k s) = true.
Proof.
  intros Hn. revert k. induction s as [|c s IH]; intros k Hs; [reflexivity|].
  cbn [all_chars] in Hs. apply andb_true_iff in Hs. destruct Hs as [Hc Hs].
  cbn [replace_from]. destruct k as [|k]; [|now apply IH].
  destruct (prefix old (String c s)).
  - rewrite all_chars_app, Hn. now apply IH.
  - cbn [all_chars]. rewrite Hc. now apply IH.
Qed.

Lemma strip_chars (p : ascii -> bool) (s : string) :
  all_chars p s = true -> all_chars p (strip s) = true.
Proof.
  intros H. destruct (strip_split s) as [a [b [E _]]].
  rewrite E, !all_chars_app in H.
  apply andb_true_iff in H. destruct H as [_ H].
  apply andb_true_iff in H. now destruct H.
Qed.

Lemma clean_event_text_shape (sentence : string) :
  is_trimmed (clean_event_text sentence) = true
  /\ all_chars space_or_ink (clean_event_text sentence) = true.
Proof.
  unfold clean_event_text. split; [apply strip_trimmed|].
  apply strip_chars. apply replace_chars; [reflexivity|].
  rewrite sub_spaces. apply collapse_chars.
Qed.

(** ** The fields of an event *)

Lemma candidates_In (sentences : list string) (cs : list candidate) :
  candidates sentences = Ok cs ->
  forall c, In c cs ->
            exists sentence, In sentence sentences
                             /\ sentence_candidate sentence = Ok (Some c).
Proof.
  revert cs. induction sentences as [|s ss IH]; intros cs.
  - cbn [candidates]. intros [= <-] c [].
  - cbn [candidates].
    destruct (sentence_candidate s) as [o|e] eqn:E; cbn [bind]; [|discriminate].
    destruct (candidates ss) as [cs'|e]; cbn [bind]; [|discriminate].
    intros [= <-] c Hc.
    assert (T : forall c, In c cs' ->
                exists sentence, In sentence (s :: ss)
                                 /\ sentence_candidate sentence = Ok (Some c)).
    { intros c' Hc'. destruct (IH cs' eq_refl c' Hc') as [s' [Hin Hs]].
      exists s'. split; [now right|exact Hs]. }
    destruct o as [c0|]; [|now apply T].
    destruct Hc as [<-|Hc]; [|now apply T].
    exists s. split; [now left|exact E].
Qed.

(** Every sentence [re.split] returns is a piece of the text. *)
Lemma split_from_inside (f : flags) (r : regex) (fuel : nat) (piece : string)
      (c : cursor) (p : string) :
  In p (split_from f r fuel piece c) ->
  exists pre post, (rev piece ++ rest c)%string = (pre ++ p ++ post)%string.
Proof.
  revert piece c. induction fuel as [|fuel IH]; intros piece c; cbn [split_from].
  - intros [<-|[]]. exists EmptyString, (rest c). reflexivity.
  - assert (Last : In p [rev piece] ->
                   exists pre post,
                     (rev piece ++ rest c)%string = (pre ++ p ++ post)%string).
    { intros [<-|[]]. exists EmptyString, (rest c). reflexivity. }
    assert (Skip : forall x s,
               rest c = String x s ->
               In p (split_from f r fuel (String x piece) (advance x s c)) ->
               exists pre post,
                 (rev piece ++ rest c)%string = (pre ++ p ++ post)%string).
    { intros x s E H. destruct (IH _ _ H) as [pre [post Hp]].
      exists pre, post. rewrite <- Hp, E, rev_cons, append_assoc. reflexivity. }
    destruct (match_at f r c) as [m|] eqn:M.
    + destruct (String.length (rest (m_end m)) <? String.length (rest c))%nat.
      * intros [<-|H]; [exists EmptyString, (rest c); reflexivity|].
        destruct (IH _ _ H) as [pre [post Hp]].
        change (rest (clear_caps (m_end m))) with (rest (m_end m)) in Hp.
        change (rev "") with EmptyString in Hp. cbn [append] in Hp.
        exists (rev piece ++ group0 m ++ pre)%string, post.
        rewrite (match_at_group0 _ _ _ _ M), Hp, !append_assoc. reflexivity.
      * destruct (rest c) as [|x s] eqn:E; [exact Last|exact (Skip x s eq_refl)].
    + destruct (rest c) as [|x s] eqn:E; [exact Last|exact (Skip x s eq_refl)].
Qed.

Lemma search_inside (f : flags) (r : regex) (s : string) (m : rmatch) :
  re_search f r s = Some m ->
  exists pre, s = (pre ++ group0 m ++ rest (m_end m))%string.
Proof.
  unfold re_search. intros H.
  destruct (search_from_start _ _ _ _ _ H) as [pre [Hp Hm]].
  exists pre. cbn [start_of rest] in Hp.
  now rewrite Hp, <- (match_at_group0 _ _ _ _ Hm).
Qed.

(** X16.  Every row of the timeline, for every text: the date shown is
    a piece of the text without white space at its ends; the
    description has at least five characters, no white space at its
    ends, and no white space inside other than single space characters,
    so that it stays on the line of its row. *)
Theorem timeline_event_fields
        (now : datetime) (text : string) (events : list event) :
  timeline_events now text = Ok events ->
  forall e, In e events ->
            contains (date_str e) text = true
            /\ is_trimmed (date_str e) = true
            /\ (5 <= String.length (event_text e))%nat
            /\ is_trimmed (event_text e) = true
            /\ all_chars space_or_ink (event_text e) = true.
Proof.
  intros H e He. rewrite timeline_events_spec in H.
  destruct (candidates (re_split no_flags sentence_boundary text)) as [cs|x]
    eqn:C; cbn [bind] in H; [|discriminate].
  injection H as <-.
  apply (Permutation_in _ (Permutation_sym (sort_by_perm _ _ _))) in He.
  apply in_map_iff in He. destruct He as [c [<- Hc]].
  destruct (candidates_In _ _ C c Hc) as [sentence [Hin Hs]].
  unfold sentence_candidate in Hs.
  destruct (re_search re_I timeline_date_pattern sentence) as [m|] eqn:S;
    [|discriminate].
  destruct (timeline_parse (strip (group0 m))) as [[t|]|x]; cbn [bind] in Hs;
    try discriminate.
  destruct (String.length (clean_event_text sentence) <? 5)%nat eqn:L;
    [discriminate|].
  injection Hs as <-. cbn [make_event date_str event_text].
  destruct (clean_event_text_shape sentence) as [T A].
  split; [|split; [apply strip_trimmed|split; [|split; assumption]]].
  - unfold re_split in Hin. apply split_from_inside in Hin.
    destruct Hin as [pre [post Hp]]. cbn [start_of rest] in Hp.
    change (rev "" ++ text)%string with text in Hp.
    destruct (search_inside _ _ _ _ S) as [pre' Hs'].
    destruct (strip_split (group0 m)) as [a [b [Eg _]]].
    assert (E : text = ((pre ++ pre' ++ a) ++ strip (group0 m)
                          ++ (b ++ rest (m_end m) ++ post))%string).
    { rewrite Hp. rewrite Hs' at 1. rewrite Eg at 1.
      now rewrite !append_assoc. }
    rewrite E. apply contains_middle.
  - apply Nat.ltb_ge in L. exact L.
Qed.

Lemma timeline_event_fields_witness :
  timeline_events timeline_sample_now timeline_sample_text
  = Ok timeline_sample_events
  /\ In {| parsed_date := midnight 2030 1 3; date_str := "2030-01-03";
           event_text := "Arguments resume on before the bench.";
           ev_status := Upcoming |}
        timeline_sample_events
  /\ contains "2030-01-03" timeline_sample_text = true
  /\ is_trimmed "2030-01-03" = true
  /\ (5 <= String.length "Arguments resume on before the bench.")%nat
  /\ is_trimmed "Arguments resume on before the bench." = true
  /\ all_chars space_or_ink "Arguments resume on before the bench." = true.
Proof.
  assert (H : timeline_events timeline_sample_now timeline_sample_text
              = Ok timeline_sample_events) by (vm_compute; reflexivity).
  assert (He : In {| parsed_date := midnight 2030 1 3;
                     date_str := "2030-01-03";
                     event_text := "Arguments resume on before the bench.";
                     ev_status := Upcoming |}
                  timeline_sample_events)
    by (right; right; left; reflexivity).
  split; [exact H|]. split; [exact He|].
  exact (timeline_event_fields timeline_sample_now timeline_sample_text
                               timeline_sample_events H _ He).
Defined.

(** ** The text extracted from a PDF *)

Lemma fold_pages (pages : list string) (text : string) :
  fold_left
    (fun text content =>
       if nonempty content then (text ++ content ++ newline)%string else text)
    pages text
  = (text ++ concat_pages (List.filter nonempty pages))%string.
Proof.
  revert text. induction pages as [|p pages IH]; intros text.
  - cbn. now rewrite append_nil_r.
  - cbn [fold_left List.filter]. rewrite IH.
    destruct (nonempty p); [|reflexivity].
    change (concat_pages (p :: List.filter nonempty pages))
      with (p ++ newline ++ concat_pages (List.filter nonempty pages))%string.
    now rewrite !append_assoc.
Qed.

Lemma lstrip_blank (s : string) : all_chars is_space s = true -> lstrip s = EmptyString.
Proof.
  induction s as [|c s IH]; [reflexivity|]. cbn [all_chars lstrip].
  intros H. apply andb_true_iff in H. destruct H as [-> H]. now apply IH.
Qed.

Lemma strip_blank (s : string) : all_chars is_space s = true -> strip s = EmptyString.
Proof. intros H. unfold strip. now rewrite (lstrip_blank s H). Qed.

Lemma concat_pages_blank (pages : list string) :
  forallb (all_chars is_space) pages = true ->
  all_chars is_space (concat_pages pages) = true.
Proof.
  induction pages as [|p pages IH]; [reflexivity|].
  change (concat_pages (p :: pages))
    with (p ++ newline ++ concat_pages pages)%string.
  cbn [forallb]. intros H.
  apply andb_true_iff in H. destruct H as [Hp H].
  rewrite !all_chars_app, Hp. now rewrite (IH H).
Qed.

Lemma filter_blank (pages : list string) :
  forallb (all_chars is_space) pages = true ->
  forallb (all_chars is_space) (List.filter nonempty pages) = true.
Proof.
  induction pages as [|p pages IH]; [reflexivity|].
  cbn [forallb List.filter]. intros H.
  apply andb_true_iff in H. destruct H as [Hp H].
  destruct (nonempty p); [cbn [forallb]; rewrite Hp|]; now apply IH.
Qed.

(** X17.  [extract_text_from_pdf]: when the reader fails, the failure
    comes out as HTTP 500 with the detail "PDF extraction failed: " and
    the cause; otherwise the text is that of the pages that have text,
    in order, each followed by a line feed, with the white space at the
    two ends removed.  A PDF whose pages hold nothing but white space
    yields the empty text (the document the handler then skips). *)
Theorem pdf_text_of_pages (sv : services) (pdf : string) :
  match pdf_pages sv pdf with
  | Ok pages =>
      extract_text_from_pdf sv pdf
      = Ok (strip (concat_pages (List.filter nonempty pages)))
      /\ is_trimmed (strip (concat_pages (List.filter nonempty pages))) = true
      /\ (forallb (all_chars is_space) pages = true ->
          extract_text_from_pdf sv pdf = Ok EmptyString)
  | Raise cause =>
      extract_text_from_pdf sv pdf
      = Raise (HTTPException 500 ("PDF extraction failed: " ++ exn_str cause))
  end.
Proof.
  unfold extract_text_from_pdf.
  destruct (pdf_pages sv pdf) as [pages|cause]; [|reflexivity].
  cbn [bind reraise_500]. rewrite fold_pages. cbn [append].
  split; [reflexivity|]. split; [apply strip_trimmed|].
  intros H. rewrite strip_blank; [reflexivity|].
  apply concat_pages_blank. now apply filter_blank.
Qed.
